(** * A shallow embedding of poketext (src/poketext.py, src/prefs.py)

    Python text is modelled as [String.string]; a character is an 8-bit
    [ascii], read as the Latin-1 code point of the same number, so that
    Python's [str.lower] and [str.strip] are written out on that range.
    Fallible Python code returns [sum exn A] ([inl] = the exception raised). *)

From Stdlib Require Import Bool List ZArith Lia Ascii String.
Import ListNotations.
Open Scope string_scope.
Open Scope nat_scope.
Set Warnings "-register-all".


(** Python exceptions raised by the modelled code. *)
Inductive exn :=
| TypeError
| IndexError
| ValueError
| AttributeError
| ExpatError
| JSONDecodeError
| IsADirectoryError
| OverflowError
| OSError.

Definition Res (A : Type) : Type := sum exn A.

Definition bindR {A B} (r : Res A) (f : A -> Res B) : Res B :=
  match r with inl e => inl e | inr a => f a end.

Notation "x <- r ;; k" := (bindR r (fun x => k))
  (at level 61, r at next level, right associativity).

Fixpoint mapR {A B} (f : A -> Res B) (l : list A) : Res (list B) :=
  match l with
  | [] => inr []
  | x :: l' => y <- f x ;; ys <- mapR f l' ;; inr (y :: ys)
  end.

(** ** Python [str] primitives *)
Module PyStr.

Definition code (c : ascii) : nat := nat_of_ascii c.

(** [str.lower] on Latin-1: A-Z and the accented capitals 192..222
    (except 215, the multiplication sign). *)
Definition lower_char (c : ascii) : ascii :=
  let n := code c in
  if ((65 <=? n) && (n <=? 90)) || ((192 <=? n) && (n <=? 222) && negb (n =? 215))%nat
  then ascii_of_nat (n + 32) else c.

Fixpoint lower (s : string) : string :=
  match s with
  | EmptyString => EmptyString
  | String c s' => String (lower_char c) (lower s')
  end.

(** [str.isspace] on Latin-1: \t \n \v \f \r, 28..31, space, 133, 160. *)
Definition is_space (c : ascii) : bool :=
  let n := code c in
  ((9 <=? n) && (n <=? 13)) || ((28 <=? n) && (n <=? 32)) || (n =? 133) || (n =? 160).

Fixpoint lstrip (s : string) : string :=
  match s with
  | String c s' => if is_space c then lstrip s' else s
  | EmptyString => EmptyString
  end.

Fixpoint rev_str (s : string) : string :=
  match s with
  | EmptyString => EmptyString
  | String c s' => rev_str s' ++ String c EmptyString
  end.

Definition strip (s : string) : string := rev_str (lstrip (rev_str (lstrip s))).

Fixpoint drop (n : nat) (s : string) : string :=
  match n, s with
  | O, _ => s
  | S n', String _ s' => drop n' s'
  | S _, EmptyString => EmptyString
  end.

(** [sub in s] *)
Fixpoint contains (sub s : string) : bool :=
  prefix sub s || match s with String _ s' => contains sub s' | EmptyString => false end.

(** [s.find(sub)] as an option. *)
Fixpoint find (sub s : string) : option nat :=
  if prefix sub s then Some O
  else match s with
       | EmptyString => None
       | String _ s' => option_map S (find sub s')
       end.

(** [s.split(sep, maxsplit)] for a non-empty [sep]; [None] is [maxsplit=-1]. *)
Fixpoint split_fuel (fuel : nat) (sep s : string) (maxsplit : option nat) : list string :=
  match fuel with
  | O => [s]
  | S f =>
    match maxsplit with
    | Some O => [s]
    | _ =>
      match find sep s with
      | None => [s]
      | Some i => substring 0 i s ::
                  split_fuel f sep (drop (i + length sep) s) (option_map pred maxsplit)
      end
    end
  end.

Definition split (sep s : string) : list string := split_fuel (S (length s)) sep s None.
Definition splitn (sep s : string) (n : nat) : list string :=
  split_fuel (S (length s)) sep s (Some n).

(** [s.replace(old, new)] for a non-empty [old]: every occurrence, left to right. *)
Fixpoint replace_fuel (fuel : nat) (old new s : string) : string :=
  match fuel with
  | O => s
  | S f =>
    match s with
    | EmptyString => EmptyString
    | String c s' =>
      if prefix old s then new ++ replace_fuel f old new (drop (length old) s)
      else String c (replace_fuel f old new s')
    end
  end.

Definition replace (old new s : string) : string := replace_fuel (length s) old new s.

Definition is_digit (c : ascii) : bool := ((48 <=? code c) && (code c <=? 57))%nat.
Definition digit_value (c : ascii) : Z := Z.of_nat (code c - 48).

(** Digits of [int()], with single underscores between digits. *)
Fixpoint digits_val (s : string) (acc : Z) (prev_digit : bool) : option Z :=
  match s with
  | EmptyString => if prev_digit then Some acc else None
  | String c s' =>
    if is_digit c then digits_val s' (acc * 10 + digit_value c)%Z true
    else if Ascii.eqb c "_" && prev_digit then
      match s' with
      | String d _ => if is_digit d then digits_val s' acc false else None
      | EmptyString => None
      end
    else None
  end.

Fixpoint count_digits (s : string) : nat :=
  match s with
  | EmptyString => 0
  | String c s' => (if is_digit c then 1 else 0) + count_digits s'
  end.

(** [int(s)] on a [str]: surrounding whitespace, an optional sign, decimal digits;
    [None] is the [ValueError]. More than 4300 digits (the default of
    [sys.get_int_max_str_digits()]) also raise [ValueError]. *)
Definition py_int (s : string) : option Z :=
  if 4300 <? count_digits (strip s) then None else
  match strip s with
  | String "-" r => option_map Z.opp (digits_val r 0 false)
  | String "+" r => digits_val r 0 false
  | t => digits_val t 0 false
  end.

Definition digit (n : Z) : ascii := ascii_of_nat (48 + Z.to_nat n).

(** [str(z)] for an integer. *)
Fixpoint nat_digits (fuel : nat) (n : Z) (acc : string) : string :=
  match fuel with
  | O => acc
  | S f => let acc' := String (digit (n mod 10)) acc in
           if (n <? 10)%Z then acc' else nat_digits f (n / 10) acc'
  end.

Definition str_of_Z (z : Z) : string :=
  if (z <? 0)%Z then "-" ++ nat_digits (S (Z.to_nat (Z.log2 (- z)))) (- z) ""
  else nat_digits (S (Z.to_nat (Z.log2 z))) z "".

(** A Python value shown by an f-string: [None] prints as "None". *)
Definition fmt_opt (o : option string) : string :=
  match o with Some s => s | None => "None" end.

(** Truthiness of an optional [str]. *)
Definition truthy_str (o : option string) : bool :=
  match o with Some (String _ _) => true | _ => false end.

(** Character-level views used to state properties of the code above. *)
Fixpoint has_char (c : ascii) (s : string) : bool :=
  match s with
  | EmptyString => false
  | String a s' => Ascii.eqb a c || has_char c s'
  end.

Fixpoint count_char (c : ascii) (s : string) : nat :=
  match s with
  | EmptyString => 0
  | String a s' => (if Ascii.eqb a c then 1 else 0) + count_char c s'
  end.

Fixpoint drop_char (c : ascii) (s : string) : string :=
  match s with
  | EmptyString => EmptyString
  | String a s' => if Ascii.eqb a c then drop_char c s' else String a (drop_char c s')
  end.

End PyStr.

(** ** Python values stored in prefs.json: the JSON-representable ones
    (floats are not modelled). A [dict] is an association list in insertion
    order, as Python keeps it. *)
Module Json.
Import PyStr.

Inductive json :=
| JNone
| JBool (b : bool)
| JInt (z : Z)
| JStr (s : string)
| JList (l : list json)
| JDict (kv : list (string * json)).

(** [bool(v)] *)
Definition truthy (v : json) : bool :=
  match v with
  | JNone => false
  | JBool b => b
  | JInt z => negb (Z.eqb z 0)
  | JStr s => negb (String.eqb s "")
  | JList l => negb (match l with [] => true | _ => false end)
  | JDict kv => negb (match kv with [] => true | _ => false end)
  end.

(** [s in container] for a [str] [s]: list membership, substring test on a
    [str], key test on a [dict]; any other container raises [TypeError]. *)
Definition py_in_str (s : string) (container : json) : Res bool :=
  match container with
  | JList l => inr (existsb (fun v => match v with JStr t => String.eqb t s | _ => false end) l)
  | JStr t => inr (contains s t)
  | JDict kv => inr (existsb (fun '(k, _) => String.eqb k s) kv)
  | _ => inl TypeError
  end.

Fixpoint dict_get (k : string) (kv : list (string * json)) : option json :=
  match kv with
  | [] => None
  | (k', v) :: kv' => if String.eqb k k' then Some v else dict_get k kv'
  end.

(** [d[k] = v]: an existing key keeps its position. *)
Fixpoint dict_set (k : string) (v : json) (kv : list (string * json)) : list (string * json) :=
  match kv with
  | [] => [(k, v)]
  | (k', v') :: kv' => if String.eqb k k' then (k', v) :: kv' else (k', v') :: dict_set k v kv'
  end.

(** *** [json.dumps] with its defaults ([ensure_ascii], separators ", " and ": ") *)
Definition dq : string := String (ascii_of_nat 34) EmptyString.

Definition hex_digit (n : nat) : ascii :=
  if n <? 10 then ascii_of_nat (48 + n) else ascii_of_nat (87 + n).

Definition escape_char (c : ascii) : string :=
  let n := code c in
  if n =? 34 then "\" ++ dq
  else if n =? 92 then "\\"
  else if n =? 8 then "\b"
  else if n =? 12 then "\f"
  else if n =? 10 then "\n"
  else if n =? 13 then "\r"
  else if n =? 9 then "\t"
  else if (n <? 32) || (126 <? n) then
    "\u00" ++ String (hex_digit (n / 16)) (String (hex_digit (n mod 16)) EmptyString)
  else String c EmptyString.

Fixpoint escape_str (s : string) : string :=
  match s with
  | EmptyString => EmptyString
  | String c s' => escape_char c ++ escape_str s'
  end.

Definition dump_str (s : string) : string := dq ++ escape_str s ++ dq.

Fixpoint join (sep : string) (l : list string) : string :=
  match l with
  | [] => ""
  | [x] => x
  | x :: l' => x ++ sep ++ join sep l'
  end.

Fixpoint dumps (v : json) : string :=
  match v with
  | JNone => "null"
  | JBool true => "true"
  | JBool false => "false"
  | JInt z => str_of_Z z
  | JStr s => dump_str s
  | JList l => "[" ++ join ", " (map dumps l) ++ "]"
  | JDict kv => "{" ++ join ", " (map (fun '(k, x) => dump_str k ++ ": " ++ dumps x) kv) ++ "}"
  end.

(** *** [json.loads]; [None] is the [JSONDecodeError]. Numbers with a
    fraction or exponent are floats, which are not modelled. *)
Definition is_json_ws (c : ascii) : bool :=
  let n := code c in (n =? 32) || (n =? 9) || (n =? 10) || (n =? 13).

Fixpoint skip_ws (s : string) : string :=
  match s with
  | String c s' => if is_json_ws c then skip_ws s' else s
  | EmptyString => EmptyString
  end.

Definition hex_value (c : ascii) : option nat :=
  let n := code c in
  if (48 <=? n) && (n <=? 57) then Some (n - 48)
  else if (97 <=? n) && (n <=? 102) then Some (n - 87)
  else if (65 <=? n) && (n <=? 70) then Some (n - 55)
  else None.

Definition simple_escape (e : ascii) : option ascii :=
  match code e with
  | 34 => Some e | 92 => Some e | 47 => Some e
  | 98 => Some (ascii_of_nat 8) | 102 => Some (ascii_of_nat 12)
  | 110 => Some (ascii_of_nat 10) | 114 => Some (ascii_of_nat 13)
  | 116 => Some (ascii_of_nat 9)
  | _ => None
  end.

(** The body of a string literal after its opening quote; a [\u] escape
    beyond U+00FF is outside the modelled characters. *)
Fixpoint parse_str (s : string) : option (string * string) :=
  let cont c r := match parse_str r with
                  | Some (t, rest) => Some (String c t, rest)
                  | None => None
                  end in
  match s with
  | EmptyString => None
  | String c r =>
    if code c =? 34 then Some (EmptyString, r)
    else if code c =? 92 then
      match r with
      | String "u" (String h1 (String h2 (String h3 (String h4 r')))) =>
        match hex_value h1, hex_value h2, hex_value h3, hex_value h4 with
        | Some a, Some b, Some d, Some e =>
          let n := ((a * 16 + b) * 16 + d) * 16 + e in
          if n <? 256 then
            match parse_str r' with
            | Some (t, rest) => Some (String (ascii_of_nat n) t, rest)
            | None => None
            end
          else None
        | _, _, _, _ => None
        end
      | String e r' =>
        match simple_escape e with
        | Some ch => match parse_str r' with
                     | Some (t, rest) => Some (String ch t, rest)
                     | None => None
                     end
        | None => None
        end
      | EmptyString => None
      end
    else if code c <? 32 then None
    else cont c r
  end.

Fixpoint parse_digits (s : string) (acc : Z) : Z * string :=
  match s with
  | String c r => if is_digit c then parse_digits r (acc * 10 + digit_value c)%Z else (acc, s)
  | EmptyString => (acc, s)
  end.

Definition no_fraction (z : Z) (r : string) : option (json * string) :=
  match r with
  | String "." _ | String "e" _ | String "E" _ => None
  | _ => Some (JInt z, r)
  end.

Definition parse_number (s : string) : option (json * string) :=
  let '(neg, s1) := match s with String "-" r => (true, r) | _ => (false, s) end in
  let sign z := if neg then Z.opp z else z in
  match s1 with
  | String "0" r => no_fraction 0%Z r
  | String c r =>
    if is_digit c then let '(z, r') := parse_digits r (digit_value c) in no_fraction (sign z) r'
    else None
  | EmptyString => None
  end.

Fixpoint parse_value (fuel : nat) (s : string) : option (json * string) :=
  match fuel with
  | O => None
  | S f =>
    match skip_ws s with
    | String "n" (String "u" (String "l" (String "l" r))) => Some (JNone, r)
    | String "t" (String "r" (String "u" (String "e" r))) => Some (JBool true, r)
    | String "f" (String "a" (String "l" (String "s" (String "e" r)))) => Some (JBool false, r)
    | String "[" r =>
      match skip_ws r with
      | String "]" r' => Some (JList [], r')
      | _ => match parse_items f r with
             | Some (l, r') => Some (JList l, r')
             | None => None
             end
      end
    | String "{" r =>
      match skip_ws r with
      | String "}" r' => Some (JDict [], r')
      | _ => match parse_members f [] r with
             | Some (kv, r') => Some (JDict kv, r')
             | None => None
             end
      end
    | String c r =>
      if code c =? 34 then
        match parse_str r with Some (t, r') => Some (JStr t, r') | None => None end
      else parse_number (String c r)
    | EmptyString => None
    end
  end
with parse_items (fuel : nat) (s : string) : option (list json * string) :=
  match fuel with
  | O => None
  | S f =>
    match parse_value f s with
    | None => None
    | Some (v, r) =>
      match skip_ws r with
      | String "," r' => match parse_items f r' with
                         | Some (vs, r'') => Some (v :: vs, r'')
                         | None => None
                         end
      | String "]" r' => Some ([v], r')
      | _ => None
      end
    end
  end
with parse_members (fuel : nat) (acc : list (string * json)) (s : string)
  : option (list (string * json) * string) :=
  match fuel with
  | O => None
  | S f =>
    match skip_ws s with
    | String c r =>
      if code c =? 34 then
        match parse_str r with
        | Some (k, r1) =>
          match skip_ws r1 with
          | String ":" r2 =>
            match parse_value f r2 with
            | Some (v, r3) =>
              let acc' := dict_set k v acc in
              match skip_ws r3 with
              | String "," r4 => parse_members f acc' r4
              | String "}" r4 => Some (acc', r4)
              | _ => None
              end
            | None => None
            end
          | _ => None
          end
        | None => None
        end
      else None
    | EmptyString => None
    end
  end.

Definition loads (s : string) : Res json :=
  match parse_value (3 * length s + 3) s with
  | Some (v, r) => match skip_ws r with EmptyString => inr v | _ => inl JSONDecodeError end
  | None => inl JSONDecodeError
  end.

End Json.

(** ** src/prefs.py: the preference file [PREFS_PATH] and its accessors.
    The file is absent, a regular file with its text, or a path that exists
    but is not a regular file (e.g. a directory). The diagnostic [print] of
    [_loadJSON] is not modelled. *)
Module Prefs.
Import Json.

Inductive prefs_file :=
| PAbsent
| PFile (text : string)
| PNotFile.

Definition _loadJSON (f : prefs_file) : Res json * prefs_file :=
  match f with
  | PAbsent => (inr (JDict []), PFile "")      (* PREFS_PATH.touch(); return {} *)
  | PNotFile => (inr (JDict []), PNotFile)
  | PFile t => (loads t, f)
  end.

Definition getPref (preference : string) (f : prefs_file) : Res json * prefs_file :=
  let '(r, f1) := _loadJSON f in
  (d <- r ;;
   match d with
   | JDict kv => inr (match dict_get preference kv with Some v => v | None => JNone end)
   | _ => inl AttributeError                   (* prefsData.keys() *)
   end, f1).

Definition setPref (preference : string) (value : json) (f : prefs_file) : Res unit * prefs_file :=
  let '(r, f1) := _loadJSON f in
  match r with
  | inl e => (inl e, f1)
  | inr (JDict kv) =>
    match f1 with
    | PNotFile => (inl IsADirectoryError, f1)  (* PREFS_PATH.write_text *)
    | _ => (inr tt, PFile (dumps (JDict (dict_set preference value kv))))
    end
  | inr _ => (inl TypeError, f1)               (* prefsData[preference] = value *)
  end.

End Prefs.

(** ** formatHTML (src/poketext.py): the four [re.sub] passes in the order
    of the [replacements] dict, then [HTML(...)]. Each pattern is written as
    a matcher returning the text after the leftmost match at this position. *)
Module Format.
Import PyStr.

Definition nl : string := String (ascii_of_nat 10) EmptyString.

(** [re.sub] with a pattern that never matches the empty string. *)
Fixpoint sub_fuel (fuel : nat) (m : string -> option string) (repl s : string) : string :=
  match fuel with
  | O => s
  | S f =>
    match s with
    | EmptyString => EmptyString
    | String c s' =>
      match m s with
      | Some rest => repl ++ sub_fuel f m repl rest
      | None => String c (sub_fuel f m repl s')
      end
    end
  end.

Definition sub (m : string -> option string) (repl s : string) : string :=
  sub_fuel (length s) m repl s.

(** Splits at the first [>]: the text before it and the text after it. *)
Fixpoint upto_gt (s : string) : option (string * string) :=
  match s with
  | EmptyString => None
  | String ">" r => Some ("", r)
  | String c r => match upto_gt r with Some (a, b) => Some (String c a, b) | None => None end
  end.

Fixpoint ends_with_slash (s : string) : bool :=
  match s with
  | String "/" EmptyString => true
  | String _ r => ends_with_slash r
  | EmptyString => false
  end.

(** [<psicon[^>]*\/>] *)
Definition m_psicon (s : string) : option string :=
  if prefix "<psicon" s then
    match upto_gt (drop 7 s) with
    | Some (before, after) => if ends_with_slash before then Some after else None
    | None => None
    end
  else None.

(** [\|(raw|html|uhtml)\|] *)
Definition m_marker (s : string) : option string :=
  if prefix "|raw|" s then Some (drop 5 s)
  else if prefix "|html|" s then Some (drop 6 s)
  else if prefix "|uhtml|" s then Some (drop 7 s)
  else None.

(** [<(img|font)[^>]*>|</(font|img)>] *)
Definition m_imgfont (s : string) : option string :=
  let first_alt :=
    if prefix "<img" s then option_map snd (upto_gt (drop 4 s))
    else if prefix "<font" s then option_map snd (upto_gt (drop 5 s))
    else None in
  match first_alt with
  | Some r => Some r
  | None =>
    if prefix "</font>" s then Some (drop 7 s)
    else if prefix "</img>" s then Some (drop 6 s)
    else None
  end.

(** [&(nbsp|ThickSpace);] *)
Definition m_entity (s : string) : option string :=
  if prefix "&nbsp;" s then Some (drop 6 s)
  else if prefix "&ThickSpace;" s then Some (drop 12 s)
  else None.

Definition format_text (rawHTML : string) : string :=
  sub m_entity " " (sub m_imgfont "" (sub m_marker nl (sub m_psicon "" rawHTML))).

(** prompt_toolkit's [HTML(value)] is library code outside this repository
    (it parses [<html-root>value</html-root>] with [xml.dom.minidom], raising
    [ExpatError] on markup that is not well-formed, and raises [ValueError] on
    an [fg], [bg] or [color] attribute holding a space). It is a parameter:
    [HTML value] is the exception it raises on [value], [None] when it
    accepts [value]. *)
Section HTML.
Variable HTML : string -> option exn.

(** [formatHTML]: the markup of the [HTML] object it returns. *)
Definition formatHTML (rawHTML : string) : Res string :=
  let t := format_text rawHTML in
  match HTML t with
  | Some e => inl e
  | None => inr t
  end.

End HTML.

End Format.

(** ** PSInterface.handleMessage (src/poketext.py) *)
Module Render.
Import PyStr Json Format.

(** The fields of a [psclient.Message] that [handleMessage] reads. [sender]
    is [message.sender.id] ([None] when there is no sender object), [room]
    is [message.room.id], [time] is the protocol's timestamp field as text,
    [this_id] is [message.connection.this.id] ([None] when [this] is unset). *)
Record Message := mkMessage {
  mtype : string;
  raw : string;
  senderName : option string;
  sender : option string;
  body : option string;
  room : option string;
  time : option string;
  this_id : option string
}.

(** One [printf] call: a plain [str] or an [HTML] object (its markup). *)
Inductive display :=
| UText (s : string)
| UHtml (markup : string).

(** The number of days from 1970-01-01 to the proleptic Gregorian date
    [y]-[m]-[d] ([m] in 1..12), the calendar [gmtime_r] and [datetime] use. *)
Definition days_from_civil (y m d : Z) : Z :=
  let y' := if (m <=? 2)%Z then (y - 1)%Z else y in
  let era := (y' / 400)%Z in
  let yoe := (y' - era * 400)%Z in
  let doy := ((153 * (if (2 <? m)%Z then m - 3 else m + 9) + 2) / 5 + d - 1)%Z in
  let doe := (yoe * 365 + yoe / 4 - yoe / 100 + doy)%Z in
  (era * 146097 + doe - 719468)%Z.

(** glibc's [gmtime_r] stores [year - 1900] in a C [int] and fails with
    [EOVERFLOW] for a year that does not fit: the timestamps it converts are
    [gmtime_lo <= t < gmtime_hi]. *)
Definition gmtime_lo : Z := (days_from_civil (-2147483648 + 1900) 1 1 * 86400)%Z.
Definition gmtime_hi : Z := (days_from_civil (2147483647 + 1900 + 1) 1 1 * 86400)%Z.

(** [datetime.utcfromtimestamp(t).time()] for an [int] [t], as seconds of the
    day (CPython on 64-bit Linux): a timestamp that does not fit [time_t]
    raises [OverflowError]; one that [gmtime_r] cannot convert raises
    [OSError] (errno [EOVERFLOW]); one whose year is outside 1..9999 raises
    [ValueError]. *)
Definition utc_time_of_day (t : Z) : Res Z :=
  if negb ((-9223372036854775808 <=? t)%Z && (t <=? 9223372036854775807)%Z) then inl OverflowError
  else if negb ((gmtime_lo <=? t)%Z && (t <? gmtime_hi)%Z) then inl OSError
  else if (-62135596800 <=? t)%Z && (t <=? 253402300799)%Z then inr (t mod 86400)%Z
  else inl ValueError.

Definition pad2 (n : Z) : string :=
  String (digit (n / 10)) (String (digit (n mod 10)) EmptyString).

(** [str(time)] of a [datetime.time] without microseconds: HH:MM:SS. *)
Definition time_str (sod : Z) : string :=
  pad2 (sod / 3600) ++ ":" ++ pad2 ((sod / 60) mod 60) ++ ":" ++ pad2 (sod mod 60).

(** The [time] local of the chat branch. *)
Definition chat_time (t : option string) : Res string :=
  if truthy_str t then
    match py_int (fmt_opt t) with
    | None => inl ValueError
    | Some z =>
      sod <- utc_time_of_day z ;;
      inr ("[" ++ time_str sod ++ "] ")
    end
  else inr "".

Definition is_kind (m : Message) (k : string) : bool := String.eqb (mtype m) k.

(** [handleMessage] with [HTML] prompt_toolkit's parser (see [formatHTML])
    and [getPref] the Preference Store's answers; the result is the list of
    units printed, or the exception raised (nothing is printed then). *)
Definition handleMessage (HTML : string -> option exn) (getPref : string -> json) (m : Message)
  : Res (list display) :=
  blocked <- py_in_str (mtype m) (getPref "blacklistedTypes") ;;
  if blocked then inr [] else
  if is_kind m "chat" && truthy_str (senderName m) && truthy_str (body m) && truthy_str (room m)
  then
    tm <- chat_time (time m) ;;
    let b := fmt_opt (body m) in
    let line := "(" ++ fmt_opt (room m) ++ ") " ++ tm ++ strip (fmt_opt (senderName m))
                ++ ": " ++ b in
    if contains "|raw|" b then
      let sp := split "|raw|" b in
      items <- mapR (formatHTML HTML) (tl sp) ;;
      inr (UText (replace b (hd "" sp) line) :: map UHtml items)
    else inr [UText line]
  else
  let formatted0 := UText (raw m) in
  formatted1 <-
    (if is_kind m "pm" && truthy_str (senderName m) then
       match sender m with
       | Some sid =>
         match this_id m with
         | None => inl AttributeError
         | Some tid =>
           if negb (String.eqb sid tid)
           then inr (UText ("(PM from " ++ strip (fmt_opt (senderName m)) ++ ") "
                            ++ fmt_opt (body m)))
           else inr formatted0
         end
       | None => inr formatted0
       end
     else inr formatted0) ;;
  let formatted2 :=
    if (is_kind m "join" || is_kind m "leave") && truthy_str (room m) && truthy_str (senderName m)
    then
      if truthy (getPref "showjoins")
      then UText (strip (fmt_opt (senderName m)) ++ " "
                  ++ (if is_kind m "join" then "joined" else "left") ++ " " ++ fmt_opt (room m))
      else formatted1
    else formatted1 in
  formatted3 <-
    (if (is_kind m "raw" || is_kind m "html" || is_kind m "uhtml") && truthy_str (Some (raw m))
     then
       let index := if is_kind m "uhtml" then 3 else 2 in
       let sp := splitn "|" (raw m) index in
       pre <- (if is_kind m "uhtml"
               then match nth_error sp (index - 1) with
                    | Some n => inr (n ++ ": ")
                    | None => inl IndexError
                    end
               else inr "") ;;
       payload <- (match nth_error sp index with Some p => inr p | None => inl IndexError end) ;;
       h <- formatHTML HTML (pre ++ payload) ;;
       inr (UHtml h)
     else inr formatted2) ;;
  inr [formatted3].

(** The events that no specialized rule of [handleMessage] takes (a pm whose
    connection has no local user raises instead, so it is not among them). *)
Definition falls_back (m : Message) : bool :=
  negb (is_kind m "chat" && truthy_str (senderName m) && truthy_str (body m) && truthy_str (room m)) &&
  negb (is_kind m "pm" && truthy_str (senderName m) &&
        match sender m, this_id m with
        | Some sid, Some tid => negb (String.eqb sid tid)
        | Some _, None => true
        | None, _ => false
        end) &&
  negb ((is_kind m "join" || is_kind m "leave") && truthy_str (room m) && truthy_str (senderName m)) &&
  negb ((is_kind m "raw" || is_kind m "html" || is_kind m "uhtml") && truthy_str (Some (raw m))).

End Render.

(** ** The command registry of [PSInterface]: [__init__], [loadPlugin],
    [unloadPlugin] (src/poketext.py) *)
Module Registry.
Import PyStr Json.

(** A [dict] keyed by [str], as an association list in insertion order. *)
Fixpoint assoc_get {V} (k : string) (l : list (string * V)) : option V :=
  match l with
  | [] => None
  | (k', v) :: l' => if String.eqb k k' then Some v else assoc_get k l'
  end.

Fixpoint assoc_set {V} (k : string) (v : V) (l : list (string * V)) : list (string * V) :=
  match l with
  | [] => [(k, v)]
  | (k', v') :: l' => if String.eqb k k' then (k', v) :: l' else (k', v') :: assoc_set k v l'
  end.

Definition assoc_mem {V} (k : string) (l : list (string * V)) : bool :=
  match assoc_get k l with Some _ => true | None => false end.

(** [del d[k]]: the keys of a dict are distinct, so this drops the one entry. *)
Definition assoc_del {V} (k : string) (l : list (string * V)) : list (string * V) :=
  filter (fun '(k', _) => negb (String.eqb k k')) l.

(** [d.update(other)] *)
Definition assoc_update {V} (l other : list (string * V)) : list (string * V) :=
  fold_left (fun acc '(k, v) => assoc_set k v acc) other l.

(** [plugin.lower().replace(' ', '')] *)
Definition normalize (plugin : string) : string := replace " " "" (lower plugin).

(** The bound methods registered by [__init__]. *)
Inductive builtin := BSwitchRoomContext | BEval | BLoadPlugin | BUnloadPlugin | BExit | BConfigure.

Definition builtin_names : list string :=
  ["room"; "eval"; "loadplugin"; "load"; "unload"; "unloadplugin"; "exit"; "bye"; "configure"].

(** A line printed by [printf] or, in red, by [logError]. *)
Inductive printed := POut (s : string) | PErr (s : string).

Section Iface.

(** A plugin's command function. *)
Variable H : Type.

Inductive handler := Builtin (b : builtin) | PluginCmd (h : H).

(** What [importlib.import_module(plugin).commands] gives: the plugin's
    command dict, [ModuleNotFoundError], [AttributeError] (no [commands]),
    or another exception, with its message. *)
Inductive resolution :=
| Resolved (cmds : list (string * H))
| NotFound
| NoCommands
| OtherError (msg : string).

(** Module import is cached in [sys.modules], so a name resolves the same
    way at load and unload time. *)
Variable resolve : string -> resolution.

Record iface := mkIface {
  commands : list (string * handler);
  loadedPlugins : list string;
  prefsFile : Prefs.prefs_file;
  out : list printed
}.

Definition initCommands : list (string * handler) :=
  [("room", Builtin BSwitchRoomContext); ("eval", Builtin BEval);
   ("loadplugin", Builtin BLoadPlugin); ("load", Builtin BLoadPlugin);
   ("unload", Builtin BUnloadPlugin); ("unloadplugin", Builtin BUnloadPlugin);
   ("exit", Builtin BExit); ("bye", Builtin BExit); ("configure", Builtin BConfigure)].

Definition with_commands (st : iface) c := mkIface c (loadedPlugins st) (prefsFile st) (out st).
Definition with_loaded (st : iface) l := mkIface (commands st) l (prefsFile st) (out st).
Definition with_file (st : iface) f := mkIface (commands st) (loadedPlugins st) f (out st).
Definition emit (st : iface) p := mkIface (commands st) (loadedPlugins st) (prefsFile st) (out st ++ [p]).

(** [logError(msg)] and [printf(msg)] both return [None]. *)
Definition logError (msg : string) (st : iface) : Res unit * iface := (inr tt, emit st (PErr msg)).
Definition printf (msg : string) (st : iface) : Res unit * iface := (inr tt, emit st (POut msg)).

Definition set_add (p : string) (l : list string) : list string :=
  if existsb (String.eqb p) l then l else l ++ [p].
Definition set_remove (p : string) (l : list string) : list string :=
  filter (fun q => negb (String.eqb p q)) l.

Definition loadPlugin (plugin0 : string) (st : iface) : Res unit * iface :=
  let plugin := normalize plugin0 in
  if String.eqb plugin "" then logError "You must specify a plugin." st else
  if existsb (String.eqb plugin) (loadedPlugins st) then logError "That plugin is already loaded." st else
  match resolve plugin with
  | NotFound => logError ("No plugin named " ++ plugin ++ " was found.") st
  | NoCommands =>
    logError ("The plugin file is invalid." ++ "Check that you have the latest version and that the file 'plugins/"
              ++ plugin ++ ".py' is correctly formatted") st
  | OtherError msg => logError ("Error: " ++ msg) st
  | Resolved cmds =>
    let st1 := with_loaded (with_commands st (assoc_update (commands st)
                                               (map (fun '(k, h) => (k, PluginCmd h)) cmds)))
                           (set_add plugin (loadedPlugins st)) in
    let '(r, f1) := Prefs.getPref "plugins" (prefsFile st1) in
    let st2 := with_file st1 f1 in
    match r with
    | inl e => (inl e, st2)
    | inr ps =>
      let ps' := if truthy ps then ps else JList [] in
      match py_in_str plugin ps' with
      | inl e => (inl e, st2)
      | inr true => printf ("Plugin " ++ plugin ++ " loaded!") st2
      | inr false =>
        match ps' with
        | JList l =>
          let '(r2, f2) := Prefs.setPref "plugins" (JList (l ++ [JStr plugin])) (prefsFile st2) in
          let st3 := with_file st2 f2 in
          match r2 with
          | inl e => (inl e, st3)
          | inr _ => printf ("Plugin " ++ plugin ++ " loaded!") st3
          end
        | _ => (inl AttributeError, st2)         (* pluginSettings.append *)
        end
      end
    end
  end.

(** [list.remove(x)]: the first element equal to [x]. *)
Fixpoint remove_first (p : string) (l : list json) : list json :=
  match l with
  | [] => []
  | v :: l' => match v with
               | JStr t => if String.eqb t p then l' else v :: remove_first p l'
               | _ => v :: remove_first p l'
               end
  end.

Definition unloadPlugin (plugin0 : string) (st : iface) : Res unit * iface :=
  let plugin := normalize plugin0 in
  if String.eqb plugin "" then logError "You must specify a plugin." st else
  if negb (existsb (String.eqb plugin) (loadedPlugins st)) then logError "That plugin isn't loaded!" st else
  match resolve plugin with
  | NotFound => logError ("No plugin named " ++ plugin ++ " was found.") st
  | NoCommands => logError ("Error: module '" ++ plugin ++ "' has no attribute 'commands'") st
  | OtherError msg => logError ("Error: " ++ msg) st
  | Resolved cmds =>
    let cs := fold_left (fun acc '(name, _) => if assoc_mem name acc then assoc_del name acc else acc)
                        cmds (commands st) in
    let st1 := with_loaded (with_commands st cs) (set_remove plugin (loadedPlugins st)) in
    let '(r, f1) := Prefs.getPref "plugins" (prefsFile st1) in
    let st2 := with_file st1 f1 in
    match r with
    | inl e => (inl e, st2)
    | inr ps =>
      let present := if truthy ps then py_in_str plugin ps else inr false in
      match present with
      | inl e => (inl e, st2)
      | inr false => printf ("Plugin " ++ plugin ++ " unloaded!") st2
      | inr true =>
        match ps with
        | JList l =>
          let '(r2, f2) := Prefs.setPref "plugins" (JList (remove_first plugin l)) (prefsFile st2) in
          let st3 := with_file st2 f2 in
          match r2 with
          | inl e => (inl e, st3)
          | inr _ => printf ("Plugin " ++ plugin ++ " unloaded!") st3
          end
        | _ => (inl AttributeError, st2)         (* pluginSettings.remove *)
        end
      end
    end
  end.

(** The states of the registry from [__init__] on: its built-ins, then
    loads and unloads (an exception leaves the mutations made before it),
    and edits of the preference file by other code. *)
Inductive reachable : iface -> Prop :=
| reach_init : forall f o, reachable (mkIface initCommands [] f o)
| reach_load : forall st p, reachable st -> reachable (snd (loadPlugin p st))
| reach_unload : forall st p, reachable st -> reachable (snd (unloadPlugin p st))
| reach_file : forall st f, reachable st -> reachable (with_file st f).

End Iface.

Arguments Builtin {H} b.
Arguments PluginCmd {H} h.
Arguments Resolved {H} cmds.
Arguments NotFound {H}.
Arguments NoCommands {H}.
Arguments OtherError {H} msg.
Arguments mkIface {H} commands loadedPlugins prefsFile out.
Arguments commands {H} i.
Arguments loadedPlugins {H} i.
Arguments prefsFile {H} i.
Arguments out {H} i.
Arguments initCommands {H}.
Arguments loadPlugin {H} resolve plugin0 st.
Arguments unloadPlugin {H} resolve plugin0 st.
Arguments reachable {H} resolve _.

End Registry.

(** ** The command part of one [mainLoop] tick (src/poketext.py, lines
    287-300), for the line popped from [inputQueue] ([None] when it was
    empty). Handlers are opaque here: their invocation is an effect. *)
Module Dispatch.
Import PyStr.

Inductive effect :=
| ELookup (key : string)              (* split[0].lower() in interface.commands.keys() *)
| EInvoke (key arg : string)          (* interface.commands[key](arg) *)
| EPrint (msg : string)               (* printf(...) *)
| ESend (text : string).              (* interface.send -> connection.send *)

Definition dispatch (commandChar : string) (keys : list string) (roomContext : string)
    (command : option string) : list effect :=
  if negb (truthy_str command) then [] else          (* if not command: continue *)
  let c := fmt_opt command in
  if String.eqb (substring 0 (length commandChar) c) commandChar then
    let sp := splitn " " (drop (length commandChar) c) 1 in
    let tok := hd "" sp in
    let key := lower tok in
    ELookup key ::
      (if existsb (String.eqb key) keys
       then [EInvoke key (match nth_error sp 1 with Some a => a | None => "" end)]
       else [EPrint ("Unknown command '" ++ commandChar ++ tok ++ "'")])
  else [ESend (roomContext ++ "|" ++ c)].

End Dispatch.

(** ** Concrete inputs: a store, a plugin resolver with the shipped sample
    plugin (src/plugins/sample_plugin.py) and one that reuses a built-in name,
    and a freshly initialised registry. *)
Module Fixtures.
Import Json Registry Render.

(** An [HTML] parser that accepts the markup of the events below (which is
    well-formed and has no colour attribute). *)
Definition html_accepts (value : string) : option exn := None.

Definition store (k : string) : json :=
  if String.eqb k "blacklistedTypes" then JList [JStr "queryresponse"] else JNone.

Definition store_showjoins_unset (k : string) : json :=
  if String.eqb k "blacklistedTypes" then JList [] else JNone.

Definition resolver (p : string) : resolution unit :=
  if String.eqb p "sampleplugin" then Resolved [("dadjoke", tt); ("alias", tt)]
  else if String.eqb p "override" then Resolved [("exit", tt)]
  else NotFound.

Definition fresh : iface unit := mkIface initCommands [] (Prefs.PFile "{}") [].

Definition chat (body : string) (time : option string) : Message :=
  mkMessage "chat" ("|c:|0|+Annika|" ++ body) (Some " +Annika") (Some "annika")
            (Some body) (Some "lobby") time (Some "poketext").

Definition pm_msg : Message :=
  mkMessage "pm" "|pm| +Annika| poketext|hello" (Some " +Annika") (Some "annika")
            (Some "hello") None None (Some "poketext").

Definition join_msg : Message :=
  mkMessage "join" "|J| Annika" (Some " Annika") (Some "annika") None (Some "lobby") None
            (Some "poketext").

Definition title_msg : Message :=
  mkMessage "title" "|title|Lobby" None None None (Some "lobby") None (Some "poketext").

(** The registry after [load sampleplugin] from a fresh client. *)
Definition loaded_once : iface unit := snd (loadPlugin resolver "sampleplugin" fresh).

(** The registry after [load override] from a fresh client. *)
Definition override_loaded : iface unit := snd (loadPlugin resolver "override" fresh).

Definition raw_msg (raw : string) : Message :=
  mkMessage "raw" raw None None None (Some "lobby") None (Some "poketext").

End Fixtures.

(** ** Shapes of JSON values, for the properties of the preference store *)
Module JsonShape.
Import PyStr Json.

(** What may follow a JSON number: the end of the text, a comma or a
    closing bracket. *)
Definition json_delim (r : string) : bool :=
  match r with
  | EmptyString => true
  | String c _ => Ascii.eqb c "," || Ascii.eqb c "]" || Ascii.eqb c "}"
  end.

Fixpoint distinct_keys (ks : list string) : bool :=
  match ks with
  | [] => true
  | k :: ks' => negb (existsb (String.eqb k) ks') && distinct_keys ks'
  end.

(** Every dict inside the value has distinct keys, as every Python dict. *)
Fixpoint keys_wf (v : json) : bool :=
  match v with
  | JList l => forallb keys_wf l
  | JDict kv => distinct_keys (map fst kv) && forallb (fun kx => keys_wf (snd kx)) kv
  | _ => true
  end.

(** Every integer inside the value has at most 4300 digits, the default
    limit of CPython's [int]/[str] conversions, which [json.loads] and
    [json.dumps] go through ([ValueError] beyond it). *)
Fixpoint ints_ok (v : json) : bool :=
  match v with
  | JInt z => (Z.abs z <? 10 ^ 4300)%Z
  | JList l => forallb ints_ok l
  | JDict kv => forallb (fun kx => ints_ok (snd kx)) kv
  | _ => true
  end.

(** A value that Python can hold and serialise. *)
Definition json_wf (v : json) : bool := keys_wf v && ints_ok v.

End JsonShape.

(** * Properties *)

(** ** Facts about the string primitives *)
Module StrFacts.
Import PyStr.

Lemma append_assoc (s1 s2 s3 : string) : (s1 ++ s2) ++ s3 = s1 ++ s2 ++ s3.
Proof. induction s1 as [|a s1 IH]; simpl; [reflexivity | now rewrite IH]. Qed.

Lemma append_empty_r (s : string) : s ++ "" = s.
Proof. induction s as [|a s IH]; simpl; [reflexivity | now rewrite IH]. Qed.


Lemma drop_length_app (s t : string) : drop (length s) (s ++ t) = t.
Proof. induction s as [|a s IH]; simpl; [reflexivity | exact IH]. Qed.




Lemma prefix_empty s : prefix "" s = true.
Proof. destruct s; reflexivity. Qed.

(** A one-character [prefix] test looks at the first character only. *)
Lemma prefix_char c a s : prefix (String c "") (String a s) = Ascii.eqb a c.
Proof.
  simpl. destruct (ascii_dec c a) as [<-|Hne].
  - now rewrite prefix_empty, Ascii.eqb_refl.
  - symmetry. apply Ascii.eqb_neq. congruence.
Qed.

Lemma find_char_cons c a s :
  find (String c "") (String a s) =
  if Ascii.eqb a c then Some 0 else option_map S (find (String c "") s).
Proof.
  change (find (String c "") (String a s)) with
    (if prefix (String c "") (String a s) then Some 0 else option_map S (find (String c "") s)).
  now rewrite prefix_char.
Qed.











End StrFacts.

(** ** The event renderer *)
Module RenderProps.
Import PyStr Json Format Render StrFacts.

Lemma truthy_some (s : string) : s <> "" -> truthy_str (Some s) = true.
Proof. destruct s; [contradiction | reflexivity]. Qed.

Lemma kind_of m k0 : mtype m = k0 -> forall k, is_kind m k = String.eqb k0 k.
Proof. intros H k. unfold is_kind. now rewrite H. Qed.









Lemma find_count c s i :
  find (String c "") s = Some i -> count_char c s = S (count_char c (drop (i + 1) s)).
Proof.
  revert i. induction s as [|a s IH]; intros i H; [discriminate|].
  rewrite find_char_cons in H. simpl count_char.
  destruct (Ascii.eqb a c).
  - injection H as <-. reflexivity.
  - destruct (find _ s) as [i'|] eqn:E; [|discriminate].
    injection H as <-. simpl. now apply IH.
Qed.

Lemma split_fuel_length fuel s mx :
  List.length (split_fuel fuel "|" s mx) <= S (count_char "|" s).
Proof.
  revert s mx. induction fuel as [|fuel IH]; intros s mx; simpl; [lia|].
  destruct mx as [[|k]|]; simpl; try lia;
    (destruct (find "|" s) as [i|] eqn:E; simpl; [|lia]);
    rewrite (find_count "|" s i E);
    match goal with |- context [split_fuel fuel _ ?x ?y] => pose proof (IH x y) end; lia.
Qed.

Lemma splitn_short s n : count_char "|" s < n -> nth_error (splitn "|" s n) n = None.
Proof.
  intros H. apply nth_error_None. unfold splitn.
  pose proof (split_fuel_length (S (length s)) s (Some n)). lia.
Qed.

(** The chat branch, once its guard holds. *)
Lemma chat_unfold html g m sn b r :
  py_in_str (mtype m) (g "blacklistedTypes") = inr false ->
  mtype m = "chat" -> senderName m = Some sn -> sn <> "" ->
  body m = Some b -> b <> "" -> room m = Some r -> r <> "" ->
  handleMessage html g m =
  (tm <- chat_time (time m) ;;
   let line := "(" ++ r ++ ") " ++ tm ++ strip sn ++ ": " ++ b in
   if contains "|raw|" b then
     let sp := split "|raw|" b in
     items <- mapR (formatHTML html) (tl sp) ;;
     inr (UText (replace b (hd "" sp) line) :: map UHtml items)
   else inr [UText line]).
Proof.
  intros Hbl Hty Hsn Hsn' Hb Hb' Hr Hr'.
  unfold handleMessage. rewrite Hbl. cbn [bindR].
  rewrite (kind_of m "chat" Hty "chat"), Hsn, Hb, Hr, !truthy_some by assumption.
  reflexivity.
Qed.

Lemma chat_time_absent t : t = None \/ t = Some "" -> chat_time t = inr "".
Proof. intros [-> | ->]; reflexivity. Qed.

Lemma gmtime_lo_value : gmtime_lo = (-67768040609740800)%Z.
Proof. vm_compute. reflexivity. Qed.

Lemma gmtime_hi_value : gmtime_hi = 67768036191676800%Z.
Proof. vm_compute. reflexivity. Qed.

Lemma chat_time_present t z :
  py_int t = Some z -> (-62135596800 <= z <= 253402300799)%Z ->
  chat_time (Some t) = inr ("[" ++ time_str (z mod 86400) ++ "] ").
Proof.
  intros Hz Hr. unfold chat_time.
  rewrite truthy_some by (intros ->; discriminate Hz). simpl fmt_opt. rewrite Hz.
  unfold utc_time_of_day. rewrite gmtime_lo_value, gmtime_hi_value.
  replace ((-9223372036854775808 <=? z)%Z && (z <=? 9223372036854775807)%Z) with true
    by (symmetry; apply Bool.andb_true_iff; split; apply Z.leb_le; lia).
  replace ((-67768040609740800 <=? z)%Z && (z <? 67768036191676800)%Z) with true
    by (symmetry; apply Bool.andb_true_iff; split; [apply Z.leb_le | apply Z.ltb_lt]; lia).
  replace ((-62135596800 <=? z)%Z && (z <=? 253402300799)%Z) with true
    by (symmetry; apply Bool.andb_true_iff; split; apply Z.leb_le; lia).
  reflexivity.
Qed.

Lemma chat_time_not_int t :
  t <> "" -> py_int t = None -> chat_time (Some t) = inl ValueError.
Proof.
  intros Ht Hz. unfold chat_time. rewrite truthy_some by exact Ht. simpl fmt_opt.
  now rewrite Hz.
Qed.

Lemma chat_time_out_of_range t z :
  py_int t = Some z -> ~ (-62135596800 <= z <= 253402300799)%Z ->
  chat_time (Some t) =
  inl (if (-9223372036854775808 <=? z)%Z && (z <=? 9223372036854775807)%Z
       then if (gmtime_lo <=? z)%Z && (z <? gmtime_hi)%Z then ValueError else OSError
       else OverflowError).
Proof.
  intros Hz Hr. unfold chat_time.
  rewrite truthy_some by (intros ->; discriminate Hz). simpl fmt_opt. rewrite Hz.
  unfold utc_time_of_day.
  destruct ((-9223372036854775808 <=? z)%Z && (z <=? 9223372036854775807)%Z); [|reflexivity].
  cbn [negb].
  destruct ((gmtime_lo <=? z)%Z && (z <? gmtime_hi)%Z); [|reflexivity].
  cbn [negb].
  destruct ((-62135596800 <=? z)%Z && (z <=? 253402300799)%Z) eqn:E; [|reflexivity].
  apply Bool.andb_true_iff in E as [E1 E2]. apply Z.leb_le in E1, E2. lia.
Qed.

(** C10: with [blacklistedTypes] never set, [handleMessage] raises at its
    first line, for every event. *)
Theorem handleMessage_blacklist_unset_raises html g m :
  g "blacklistedTypes" = JNone -> handleMessage html g m = inl TypeError.
Proof. intros H. unfold handleMessage. now rewrite H. Qed.

(** C6: a pm with a sender name is rendered "(PM from {trimmedSender}) {body}"
    when the sender is not the local user, and as its raw line when it is. *)
Theorem pm_rendering html g m sn sid tid :
  py_in_str (mtype m) (g "blacklistedTypes") = inr false ->
  mtype m = "pm" -> senderName m = Some sn -> sn <> "" ->
  sender m = Some sid -> this_id m = Some tid ->
  (sid <> tid ->
   handleMessage html g m = inr [UText ("(PM from " ++ strip sn ++ ") " ++ fmt_opt (body m))]) /\
  (sid = tid -> handleMessage html g m = inr [UText (raw m)]).
Proof.
  intros Hbl Hty Hsn Hne Hs Ht.
  pose proof (kind_of m "pm" Hty) as Hk.
  unfold handleMessage. rewrite Hbl. cbn [bindR].
  rewrite !Hk, Hsn, (truthy_some _ Hne), Hs, Ht. simpl.
  split; intros Hid.
  - apply String.eqb_neq in Hid. now rewrite Hid.
  - subst. now rewrite String.eqb_refl.
Qed.

(** C2 (amended): a chat event with non-empty sender name, body and room,
    not blacklisted, whose body has no "|raw|", prints the one line
    "({room}) {sender}: {body}" when the timestamp is absent or empty, and
    "({room}) [HH:MM:SS] {sender}: {body}" with the UTC time of day when the
    timestamp is an integer whose UTC date lies in years 1..9999. Any other
    timestamp raises: [ValueError] when it is not an integer (or has more
    than 4300 digits) and when its year is outside 1..9999 but [gmtime_r]
    converts it; [OSError] when [gmtime_r] cannot (its year minus 1900 does
    not fit a C [int]); [OverflowError] past the 64-bit range of [time_t]. *)
Theorem chat_plain_rendering html g m sn b r :
  py_in_str (mtype m) (g "blacklistedTypes") = inr false ->
  mtype m = "chat" -> senderName m = Some sn -> sn <> "" ->
  body m = Some b -> b <> "" -> room m = Some r -> r <> "" ->
  contains "|raw|" b = false ->
  ((time m = None \/ time m = Some "") ->
   handleMessage html g m = inr [UText ("(" ++ r ++ ") " ++ strip sn ++ ": " ++ b)]) /\
  (forall t z, time m = Some t -> py_int t = Some z ->
   (-62135596800 <= z <= 253402300799)%Z ->
   handleMessage html g m =
   inr [UText ("(" ++ r ++ ") " ++ ("[" ++ time_str (z mod 86400) ++ "] ") ++ strip sn ++ ": " ++ b)]) /\
  (forall t, time m = Some t -> t <> "" -> py_int t = None -> handleMessage html g m = inl ValueError) /\
  (forall t z, time m = Some t -> py_int t = Some z -> ~ (-62135596800 <= z <= 253402300799)%Z ->
   handleMessage html g m =
   inl (if (-9223372036854775808 <=? z)%Z && (z <=? 9223372036854775807)%Z
        then if (gmtime_lo <=? z)%Z && (z <? gmtime_hi)%Z then ValueError else OSError
        else OverflowError)).
Proof.
  intros Hbl Hty Hsn Hsn' Hb Hb' Hr Hr' Hc.
  rewrite (chat_unfold html g m sn b r) by assumption.
  split; [|split; [|split]].
  - intros Ht. rewrite chat_time_absent by exact Ht. cbn [bindR]. now rewrite Hc.
  - intros t z Ht Hz Hrange. rewrite Ht, (chat_time_present t z Hz Hrange). cbn [bindR].
    now rewrite Hc.
  - intros t Ht Hne Hz. rewrite Ht, chat_time_not_int by assumption. reflexivity.
  - intros t z Ht Hz Hout. rewrite Ht, (chat_time_out_of_range t z Hz Hout). reflexivity.
Qed.


(** C4: a join/leave event with room and sender name, not blacklisted,
    prints "{sender} joined {room}" / "{sender} left {room}" when
    [showjoins] is truthy, and its raw line when it is falsy. *)
Theorem join_leave_rendering html g m sn r :
  py_in_str (mtype m) (g "blacklistedTypes") = inr false ->
  (mtype m = "join" \/ mtype m = "leave") ->
  senderName m = Some sn -> sn <> "" -> room m = Some r -> r <> "" ->
  (truthy (g "showjoins") = false -> handleMessage html g m = inr [UText (raw m)]) /\
  (truthy (g "showjoins") = true ->
   handleMessage html g m =
   inr [UText (strip sn ++ " " ++ (if String.eqb (mtype m) "join" then "joined" else "left") ++ " " ++ r)]).
Proof.
  intros Hbl Hty Hsn Hsn' Hr Hr'.
  destruct Hty as [Hty|Hty]; pose proof (kind_of m _ Hty) as Hk;
    unfold handleMessage; rewrite Hbl; cbn [bindR];
    rewrite !Hk, Hsn, Hr, !truthy_some by assumption; rewrite Hty;
    split; intros Hs; rewrite Hs; reflexivity.
Qed.

(** C5 (amended): [handleMessage] catches nothing. With a blacklist that
    does not hold the kind, an event no specialized rule takes prints its raw
    line; a raw/html event whose non-empty raw line has fewer than 2 "|", or
    a uhtml event with fewer than 3, raises [IndexError]. *)
Theorem fallback_or_index_error html g m :
  py_in_str (mtype m) (g "blacklistedTypes") = inr false ->
  (falls_back m = true -> handleMessage html g m = inr [UText (raw m)]) /\
  ((mtype m = "raw" \/ mtype m = "html") -> raw m <> "" -> count_char "|" (raw m) < 2 ->
   handleMessage html g m = inl IndexError) /\
  (mtype m = "uhtml" -> raw m <> "" -> count_char "|" (raw m) < 3 ->
   handleMessage html g m = inl IndexError).
Proof.
  intros Hbl. split; [|split].
  - intros Hf. unfold falls_back in Hf.
    apply andb_prop in Hf as [Hf H4]. apply andb_prop in Hf as [Hf H3].
    apply andb_prop in Hf as [H1 H2].
    apply negb_true_iff in H1, H2, H3, H4.
    unfold handleMessage. rewrite Hbl. cbn [bindR]. rewrite H1.
    destruct (is_kind m "pm" && truthy_str (senderName m)) eqn:Epm.
    + try rewrite Epm in H2. simpl in H2.
      destruct (sender m) as [sid|]; [destruct (this_id m) as [tid|]|]; try discriminate.
      * apply negb_false_iff in H2. rewrite H2. cbn [negb bindR]. now rewrite H3, H4.
      * cbn [bindR]. now rewrite H3, H4.
    + cbn [bindR]. now rewrite H3, H4.
  - intros Hty Hraw Hcnt.
    pose proof (splitn_short (raw m) 2 Hcnt) as Hn.
    destruct Hty as [Hty|Hty]; pose proof (kind_of m _ Hty) as Hk;
      unfold handleMessage; rewrite Hbl; cbn [bindR]; rewrite !Hk, (truthy_some _ Hraw);
      cbn -[splitn formatHTML nth_error]; rewrite Hn; reflexivity.
  - intros Hty Hraw Hcnt.
    pose proof (splitn_short (raw m) 3 Hcnt) as Hn.
    pose proof (kind_of m _ Hty) as Hk.
    unfold handleMessage. rewrite Hbl. cbn [bindR]. rewrite !Hk, (truthy_some _ Hraw).
    cbn -[splitn formatHTML nth_error].
    destruct (nth_error (splitn "|" (raw m) 3) 2); cbn [bindR]; [rewrite Hn|]; reflexivity.
Qed.

End RenderProps.

Module RenderChecks.
Import PyStr Json Format Render RenderProps.

Lemma handleMessage_blacklist_unset_raises_witness :
  handleMessage Fixtures.html_accepts (fun _ => JNone) (Fixtures.chat "hi" None) = inl TypeError.
Proof. apply handleMessage_blacklist_unset_raises. reflexivity. Defined.

Lemma pm_rendering_witness :
  handleMessage Fixtures.html_accepts Fixtures.store Fixtures.pm_msg = inr [UText "(PM from +Annika) hello"].
Proof.
  refine (proj1 (pm_rendering Fixtures.html_accepts Fixtures.store Fixtures.pm_msg " +Annika" "annika" "poketext"
                   eq_refl eq_refl eq_refl _ eq_refl eq_refl) _); discriminate.
Defined.

Lemma chat_plain_rendering_witness :
  handleMessage Fixtures.html_accepts Fixtures.store (Fixtures.chat "hi" (Some "1600000000")) =
  inr [UText ("(lobby) " ++ ("[" ++ time_str (1600000000 mod 86400) ++ "] ") ++ "+Annika: hi")].
Proof.
  refine (proj1 (proj2 (chat_plain_rendering Fixtures.html_accepts Fixtures.store (Fixtures.chat "hi" (Some "1600000000"))
                          " +Annika" "hi" "lobby" eq_refl eq_refl eq_refl _ eq_refl _ eq_refl _ eq_refl))
            "1600000000" 1600000000%Z eq_refl eq_refl _); try discriminate; lia.
Defined.


Lemma join_leave_rendering_witness :
  handleMessage Fixtures.html_accepts Fixtures.store Fixtures.join_msg = inr [UText "|J| Annika"].
Proof.
  refine (proj1 (join_leave_rendering Fixtures.html_accepts Fixtures.store Fixtures.join_msg " Annika" "lobby"
                   eq_refl (or_introl eq_refl) eq_refl _ eq_refl _) eq_refl); discriminate.
Defined.

Lemma fallback_or_index_error_witness :
  handleMessage Fixtures.html_accepts Fixtures.store Fixtures.title_msg = inr [UText "|title|Lobby"] /\
  handleMessage Fixtures.html_accepts Fixtures.store (Fixtures.raw_msg "|raw") = inl IndexError.
Proof.
  split.
  - exact (proj1 (fallback_or_index_error Fixtures.html_accepts Fixtures.store Fixtures.title_msg eq_refl) eq_refl).
  - refine (proj1 (proj2 (fallback_or_index_error Fixtures.html_accepts Fixtures.store (Fixtures.raw_msg "|raw") eq_refl))
              (or_introl eq_refl) _ _); [discriminate | vm_compute; lia].
Defined.

(** A chat event whose timestamp lies past year 9999 raises [ValueError]
    instead of printing a line, and one of 10^17 seconds raises [OSError]. *)
Lemma chat_timestamp_out_of_range :
  handleMessage Fixtures.html_accepts Fixtures.store (Fixtures.chat "hi" (Some "253402300800")) = inl ValueError /\
  handleMessage Fixtures.html_accepts Fixtures.store (Fixtures.chat "hi" (Some "100000000000000000")) = inl OSError.
Proof. split; vm_compute; reflexivity. Defined.


(** A raw event with a single "|" raises [IndexError] instead of printing its
    raw line. *)
Lemma raw_event_too_few_fields :
  handleMessage Fixtures.html_accepts Fixtures.store (Fixtures.raw_msg "|raw") = inl IndexError.
Proof. vm_compute. reflexivity. Defined.

End RenderChecks.

(** ** The command registry *)
Module RegistryProps.
Import PyStr Json Registry StrFacts.

Ltac split_matches :=
  repeat match goal with
  | |- context [match ?x with _ => _ end] => destruct x eqn:?
  end.

Lemma replace_space_fuel n s : String.length s <= n -> replace_fuel n " " "" s = drop_char " " s.
Proof.
  revert s. induction n as [|n IH]; intros s Hl.
  - destruct s; [reflexivity | simpl in Hl; lia].
  - destruct s as [|c s]; [reflexivity|]. simpl in Hl.
    cbn [replace_fuel drop_char prefix].
    destruct (ascii_dec " " c) as [<-|Hc].
    + rewrite Ascii.eqb_refl. cbn [String.length drop String.append]. rewrite prefix_empty.
      apply IH. lia.
    + replace (Ascii.eqb c " ") with false
        by (symmetry; apply Ascii.eqb_neq; congruence).
      f_equal. apply IH. lia.
Qed.

Lemma replace_space s : replace " " "" s = drop_char " " s.
Proof. apply replace_space_fuel. lia. Qed.

Lemma lower_char_space c : Ascii.eqb (lower_char c) " " = Ascii.eqb c " ".
Proof. destruct c as [[] [] [] [] [] [] [] []]; reflexivity. Qed.

Lemma lower_char_idem c : lower_char (lower_char c) = lower_char c.
Proof. destruct c as [[] [] [] [] [] [] [] []]; reflexivity. Qed.

Lemma lower_drop_space s : lower (drop_char " " s) = drop_char " " (lower s).
Proof.
  induction s as [|c s IH]; [reflexivity|]. cbn [lower drop_char].
  rewrite lower_char_space. destruct (Ascii.eqb c " "); cbn [lower]; now rewrite IH.
Qed.

Lemma lower_idem s : lower (lower s) = lower s.
Proof. induction s as [|c s IH]; [reflexivity|]. cbn [lower]. now rewrite lower_char_idem, IH. Qed.

Lemma drop_char_idem c s : drop_char c (drop_char c s) = drop_char c s.
Proof.
  induction s as [|a s IH]; [reflexivity|]. cbn [drop_char].
  destruct (Ascii.eqb a c) eqn:E; [exact IH|]. cbn [drop_char]. now rewrite E, IH.
Qed.

Lemma normalize_idem p : normalize (normalize p) = normalize p.
Proof.
  unfold normalize. rewrite !replace_space, lower_drop_space, lower_idem.
  apply drop_char_idem.
Qed.

Lemma in_set_add q p l : In q (set_add p l) -> In q l \/ q = p.
Proof.
  unfold set_add. destruct (existsb _ l); [now left|].
  intros Hin. apply in_app_or in Hin as [Hin | [<- | []]]; auto.
Qed.

Lemma in_set_remove q p l : In q (set_remove p l) -> In q l /\ q <> p.
Proof.
  unfold set_remove. intros Hin. apply filter_In in Hin as [Hin Hq].
  split; [exact Hin|]. intros ->. now rewrite String.eqb_refl in Hq.
Qed.

Section Loaded.
Context {H : Type} (resolve : string -> resolution H).

Lemma loaded_load p st q :
  In q (loadedPlugins (snd (loadPlugin resolve p st))) ->
  In q (loadedPlugins st) \/ (q = normalize p /\ normalize p <> "").
Proof.
  unfold loadPlugin. cbv zeta.
  destruct (String.eqb (normalize p) "") eqn:E0; [now left|].
  apply String.eqb_neq in E0.
  split_matches; cbn [snd loadedPlugins with_file with_loaded with_commands emit logError printf];
    intros Hin; try (left; exact Hin);
    (apply in_set_add in Hin as [Hin | ->]; [left; exact Hin | right; split; [reflexivity | exact E0]]).
Qed.

Lemma loaded_unload p st q :
  In q (loadedPlugins (snd (unloadPlugin resolve p st))) -> In q (loadedPlugins st).
Proof.
  unfold unloadPlugin. cbv zeta.
  destruct (String.eqb (normalize p) "") eqn:E0; [now intros|].
  destruct (negb _); [now intros|].
  split_matches; cbn [snd loadedPlugins with_file with_loaded with_commands emit logError printf];
    intros Hin; try exact Hin; exact (proj1 (in_set_remove _ _ _ Hin)).
Qed.

(** Every tracked plugin id is a normalized, non-empty name. *)
Lemma reachable_tracked st :
  reachable resolve st -> forall q, In q (loadedPlugins st) -> normalize q = q /\ q <> "".
Proof.
  induction 1 as [f o | st p _ IH | st p _ IH | st f _ IH]; intros q Hin.
  - destruct Hin.
  - apply loaded_load in Hin as [Hin | [-> Hne]]; [now apply IH|].
    split; [apply normalize_idem | exact Hne].
  - apply IH. exact (loaded_unload _ _ _ Hin).
  - apply IH. exact Hin.
Qed.

Lemma assoc_get_del {V} x k (l : list (string * V)) :
  assoc_get x (assoc_del k l) = if String.eqb x k then None else assoc_get x l.
Proof.
  induction l as [|[k' v] l IH]; [simpl; now destruct (String.eqb x k)|].
  unfold assoc_del in *. cbn [filter].
  destruct (String.eqb k k') eqn:Ekk; cbn [negb assoc_get].
  - apply String.eqb_eq in Ekk. subst k'. rewrite IH. now destruct (String.eqb x k).
  - rewrite IH. destruct (String.eqb_spec x k) as [->|Hxk]; [now rewrite Ekk | reflexivity].
Qed.

Lemma assoc_get_fold_del (cmds : list (string * H)) x (acc : list (string * handler H)) :
  assoc_get x (fold_left (fun acc '(name, _) => if assoc_mem name acc then assoc_del name acc else acc)
                         cmds acc) =
  if existsb (String.eqb x) (map fst cmds) then None else assoc_get x acc.
Proof.
  revert acc. induction cmds as [|[name h] cmds IH]; intros acc; [reflexivity|].
  cbn [fold_left map existsb fst]. rewrite IH.
  destruct (existsb (String.eqb x) (map fst cmds)); [now rewrite Bool.orb_true_r|].
  rewrite Bool.orb_false_r.
  destruct (assoc_mem name acc) eqn:Em.
  - apply assoc_get_del.
  - unfold assoc_mem in Em.
    destruct (String.eqb_spec x name) as [->|]; [|reflexivity].
    destruct (assoc_get name acc); [discriminate | reflexivity].
Qed.

Lemma unload_resolved p st cmds :
  normalize p <> "" -> In (normalize p) (loadedPlugins st) -> resolve (normalize p) = Resolved cmds ->
  commands (snd (unloadPlugin resolve p st)) =
    fold_left (fun acc '(name, _) => if assoc_mem name acc then assoc_del name acc else acc)
              cmds (commands st) /\
  loadedPlugins (snd (unloadPlugin resolve p st)) = set_remove (normalize p) (loadedPlugins st).
Proof.
  intros Hne Hin Hres. unfold unloadPlugin. cbv zeta.
  apply String.eqb_neq in Hne. rewrite Hne.
  replace (existsb (String.eqb (normalize p)) (loadedPlugins st)) with true
    by (symmetry; apply existsb_exists; exists (normalize p); split; [exact Hin | apply String.eqb_refl]).
  cbn [negb]. rewrite Hres.
  split_matches; cbn [snd commands loadedPlugins with_file with_loaded with_commands emit printf];
    split; reflexivity.
Qed.


(** C7: in every state the registry can reach, loading a plugin id that is
    already tracked logs "That plugin is already loaded." and changes
    nothing else: same command mapping, same loaded set, same preference
    file (so nothing is written to the persisted plugin list). *)
Theorem load_already_loaded st p :
  reachable resolve st -> In p (loadedPlugins st) ->
  loadPlugin resolve p st =
  (inr tt, mkIface (commands st) (loadedPlugins st) (prefsFile st)
                   (out st ++ [PErr "That plugin is already loaded."])).
Proof.
  intros Hr Hin. destruct (reachable_tracked st Hr p Hin) as [Hn Hne].
  unfold loadPlugin. cbv zeta. rewrite Hn.
  apply String.eqb_neq in Hne. rewrite Hne.
  replace (existsb (String.eqb p) (loadedPlugins st)) with true
    by (symmetry; apply existsb_exists; exists p; split; [exact Hin | apply String.eqb_refl]).
  reflexivity.
Qed.

(** C8 (amended): unloading a tracked plugin whose module resolves to the
    command dict [cmds] removes from the registry every name of [cmds] and
    drops the id from the loaded set; every name not in [cmds] keeps its
    entry. A built-in name that the plugin contributed is removed as well. *)
Theorem unload_effect st p cmds :
  reachable resolve st -> In (normalize p) (loadedPlugins st) ->
  resolve (normalize p) = Resolved cmds ->
  (forall name, In name (map fst cmds) ->
     assoc_get name (commands (snd (unloadPlugin resolve p st))) = None) /\
  ~ In (normalize p) (loadedPlugins (snd (unloadPlugin resolve p st))) /\
  (forall name, ~ In name (map fst cmds) ->
     assoc_get name (commands (snd (unloadPlugin resolve p st))) = assoc_get name (commands st)).
Proof.
  intros Hr Hin Hres.
  destruct (reachable_tracked st Hr _ Hin) as [_ Hne].
  destruct (unload_resolved p st cmds Hne Hin Hres) as [Hc Hl].
  rewrite Hc, Hl. split; [|split].
  - intros name Hn. rewrite assoc_get_fold_del.
    replace (existsb (String.eqb name) (map fst cmds)) with true; [reflexivity|].
    symmetry. apply existsb_exists. exists name. split; [exact Hn | apply String.eqb_refl].
  - intros Hin'. apply in_set_remove in Hin' as [_ Hneq]. contradiction.
  - intros name Hn. rewrite assoc_get_fold_del.
    destruct (existsb (String.eqb name) (map fst cmds)) eqn:E; [|reflexivity].
    apply existsb_exists in E as [name' [Hin' Heq]].
    apply String.eqb_eq in Heq. subst name'. contradiction.
Qed.

End Loaded.

Lemma load_already_loaded_witness :
  loadPlugin Fixtures.resolver "sampleplugin" Fixtures.loaded_once =
  (inr tt, mkIface (commands Fixtures.loaded_once) (loadedPlugins Fixtures.loaded_once)
                   (prefsFile Fixtures.loaded_once)
                   (out Fixtures.loaded_once ++ [PErr "That plugin is already loaded."])).
Proof.
  apply load_already_loaded.
  - apply reach_load, reach_init.
  - vm_compute. left. reflexivity.
Defined.

Lemma unload_effect_witness :
  (forall name, In name ["dadjoke"; "alias"] ->
     assoc_get name (commands (snd (unloadPlugin Fixtures.resolver "sampleplugin" Fixtures.loaded_once)))
     = None) /\
  ~ In "sampleplugin"
      (loadedPlugins (snd (unloadPlugin Fixtures.resolver "sampleplugin" Fixtures.loaded_once))) /\
  (forall name, ~ In name ["dadjoke"; "alias"] ->
     assoc_get name (commands (snd (unloadPlugin Fixtures.resolver "sampleplugin" Fixtures.loaded_once)))
     = assoc_get name (commands Fixtures.loaded_once)).
Proof.
  apply (unload_effect Fixtures.resolver Fixtures.loaded_once "sampleplugin" [("dadjoke", tt); ("alias", tt)]).
  - apply reach_load, reach_init.
  - vm_compute. left. reflexivity.
  - reflexivity.
Defined.

(** A plugin whose command dict holds "exit" overrides the built-in at load
    time, and unloading it deletes "exit" from the registry. *)
Lemma unload_removes_builtin :
  In "override" (loadedPlugins Fixtures.override_loaded) /\
  assoc_get "exit" (commands (snd (unloadPlugin Fixtures.resolver "override" Fixtures.override_loaded)))
  = None.
Proof. split; vm_compute; [left|]; reflexivity. Defined.

End RegistryProps.

(** ** The command dispatch of [mainLoop] *)
Module DispatchProps.
Import PyStr Dispatch.

Lemma eqb_substring cc line : String.eqb (substring 0 (String.length cc) line) cc = prefix cc line.
Proof.
  destruct (prefix cc line) eqn:E.
  - apply String.prefix_correct in E. rewrite E. apply String.eqb_refl.
  - apply String.eqb_neq. intros Hs. apply String.prefix_correct in Hs. congruence.
Qed.

(** [s.split(' ', 1)] *)
Lemma splitn_one s :
  splitn " " s 1 =
  match find " " s with Some i => [substring 0 i s; drop (S i) s] | None => [s] end.
Proof.
  unfold splitn. cbn [split_fuel].
  destruct (find " " s) as [i|]; [|reflexivity].
  replace (i + String.length " ") with (S i) by (simpl; lia).
  destruct (String.length s); reflexivity.
Qed.

(** C1 (amended): for every non-empty line, a line that starts with the
    command prefix [cc] is looked up by the lowercased token before its
    first space (after the prefix); the handler is then invoked with the
    text after that space ("" if none), or "Unknown command '{cc}{token}'"
    is printed, and nothing is sent. Any other line is sent whole as
    "{room}|{line}", with no lookup. An empty line does nothing at all. *)
Theorem dispatch_line cc keys room line :
  line <> "" ->
  (prefix cc line = true ->
   let rest := drop (String.length cc) line in
   let tok := match find " " rest with Some i => substring 0 i rest | None => rest end in
   let arg := match find " " rest with Some i => drop (S i) rest | None => "" end in
   dispatch cc keys room (Some line) =
   ELookup (lower tok) ::
     (if existsb (String.eqb (lower tok)) keys then [EInvoke (lower tok) arg]
      else [EPrint ("Unknown command '" ++ cc ++ tok ++ "'")])) /\
  (prefix cc line = false -> dispatch cc keys room (Some line) = [ESend (room ++ "|" ++ line)]) /\
  dispatch cc keys room (Some "") = [].
Proof.
  intros Hne. unfold dispatch.
  replace (truthy_str (Some line)) with true by (destruct line; [contradiction | reflexivity]).
  cbn [negb fmt_opt]. rewrite eqb_substring.
  split; [|split; [|reflexivity]]; intros Hp; rewrite Hp; [|reflexivity].
  cbv zeta. rewrite splitn_one.
  destruct (find " " (drop (String.length cc) line)); reflexivity.
Qed.

Lemma dispatch_line_witness :
  dispatch "%" ["room"; "eval"] "lobby" (Some "%Room lobby") = [ELookup "room"; EInvoke "room" "lobby"] /\
  dispatch "%" ["room"] "lobby" (Some "hello there") = [ESend "lobby|hello there"].
Proof.
  split.
  - refine (proj1 (dispatch_line "%" ["room"; "eval"] "lobby" "%Room lobby" _) eq_refl); discriminate.
  - refine (proj1 (proj2 (dispatch_line "%" ["room"] "lobby" "hello there" _)) eq_refl); discriminate.
Defined.

(** An empty input line is popped from the queue and skipped: it is not
    sent as "{room}|". *)
Lemma dispatch_empty_line : dispatch "%" ["room"] "lobby" (Some "") = [].
Proof. reflexivity. Defined.

End DispatchProps.

(** ** The preference store *)
Module PrefsProps.
Import Json Prefs.

(** On a fresh install [getPref] creates prefs.json empty; the round trip
    then works only through [setPref] on an absent file. *)
Lemma round_trip_from_absent :
  fst (getPref "k" (snd (setPref "k" (JList [JStr "a"; JInt 3]) PAbsent))) = inr (JList [JStr "a"; JInt 3]).
Proof. vm_compute. reflexivity. Qed.

(** C9: once any [getPref] has run on a missing prefs.json, which leaves an
    empty file behind, [setPref k v] raises [JSONDecodeError], and so does the
    [getPref k] after it: the round trip fails for every key and value. *)
Theorem setPref_after_first_getPref k0 k v :
  fst (setPref k v (snd (getPref k0 PAbsent))) = inl JSONDecodeError /\
  fst (getPref k (snd (setPref k v (snd (getPref k0 PAbsent))))) = inl JSONDecodeError.
Proof. split; reflexivity. Qed.

End PrefsProps.

(** ** The JSON codec and the preference store *)
Module JsonProps.
Import PyStr Json StrFacts JsonShape.


Lemma parse_str_escape_char c t :
  parse_str (escape_char c ++ t) =
  match parse_str t with Some (u, rest) => Some (String c u, rest) | None => None end.
Proof. destruct c as [[] [] [] [] [] [] [] []]; reflexivity. Qed.


Lemma nat_digits_app f n acc r : nat_digits f n acc ++ r = nat_digits f n (acc ++ r).
Proof.
  revert n acc. induction f as [|f IH]; intros n acc; [reflexivity|].
  cbn [nat_digits]. destruct (n <? 10)%Z; [reflexivity | apply IH].
Qed.

Lemma digit_spec n : (0 <= n < 10)%Z ->
  is_digit (digit n) = true /\ digit_value (digit n) = n /\ (digit n = "0"%char -> n = 0%Z).
Proof.
  intros Hn. unfold digit.
  destruct (Z_of_nat_complete n) as [k ->]; [lia|].
  rewrite Nat2Z.id. assert (Hk : k < 10) by lia. clear Hn.
  do 10 (destruct k as [|k]; [split; [reflexivity | split; [reflexivity | intros H; try discriminate H; reflexivity]]|]).
  lia.
Qed.

Lemma nat_digits_parse f n :
  (0 <= n)%Z -> (n < 10 ^ Z.of_nat f)%Z ->
  exists k, (0 <= k)%Z /\ forall a acc, parse_digits (nat_digits f n acc) a = parse_digits acc (a * 10 ^ k + n)%Z.
Proof.
  revert n. induction f as [|f IH]; intros n Hn Hlt.
  - exists 0%Z. split; [lia|]. intros a acc. simpl in Hlt.
    replace n with 0%Z by lia. cbn [nat_digits]. f_equal. lia.
  - rewrite Nat2Z.inj_succ, Z.pow_succ_r in Hlt by lia.
    cbn [nat_digits]. destruct (n <? 10)%Z eqn:E.
    + apply Z.ltb_lt in E. exists 1%Z. split; [lia|]. intros a acc.
      destruct (digit_spec n) as [Hd [Hv _]]; [lia|].
      rewrite Z.mod_small by lia.
      cbn [parse_digits]. rewrite Hd, Hv. f_equal; lia.
    + apply Z.ltb_ge in E.
      destruct (IH (n / 10)%Z) as [k [Hk IHk]];
        [apply Z.div_pos; lia | apply Z.div_lt_upper_bound; lia|].
      exists (k + 1)%Z. split; [lia|]. intros a acc. rewrite IHk.
      destruct (digit_spec (n mod 10)) as [Hd [Hv _]]; [apply Z.mod_pos_bound; lia|].
      cbn [parse_digits]. rewrite Hd, Hv. f_equal.
      rewrite Z.pow_add_r by lia.
      pose proof (Z.div_mod n 10). lia.
Qed.

Lemma nat_digits_head f n acc :
  (0 < n)%Z -> (n < 10 ^ Z.of_nat f)%Z ->
  exists d t, nat_digits f n acc = String d t /\ is_digit d = true /\ d <> "0"%char.
Proof.
  revert n acc. induction f as [|f IH]; intros n acc Hn Hlt; [simpl in Hlt; lia|].
  rewrite Nat2Z.inj_succ, Z.pow_succ_r in Hlt by lia.
  cbn [nat_digits]. destruct (n <? 10)%Z eqn:E.
  - apply Z.ltb_lt in E. destruct (digit_spec n) as [Hd [_ H0]]; [lia|].
    exists (digit (n mod 10)), acc. rewrite Z.mod_small by lia.
    split; [reflexivity | split; [exact Hd | intros Hz; apply H0 in Hz; lia]].
  - apply Z.ltb_ge in E. apply IH.
    + apply Z.div_str_pos. lia.
    + apply Z.div_lt_upper_bound; lia.
Qed.

Lemma log2_fuel z : (0 < z)%Z -> (z < 10 ^ Z.of_nat (S (Z.to_nat (Z.log2 z))))%Z.
Proof.
  intros Hz. destruct (Z.log2_spec z Hz) as [_ H2].
  pose proof (Z.log2_nonneg z).
  rewrite Nat2Z.inj_succ, Z2Nat.id by lia.
  eapply Z.lt_le_trans; [exact H2|].
  apply Z.pow_le_mono_l. lia.
Qed.

Lemma no_fraction_delim z r : json_delim r = true -> no_fraction z r = Some (JInt z, r).
Proof.
  destruct r as [|c r]; [reflexivity|].
  destruct c as [[] [] [] [] [] [] [] []]; intros H; try discriminate H; reflexivity.
Qed.

Lemma parse_digits_delim r a : json_delim r = true -> parse_digits r a = (a, r).
Proof.
  destruct r as [|c r]; [reflexivity|].
  destruct c as [[] [] [] [] [] [] [] []]; intros H; try discriminate H; reflexivity.
Qed.

Lemma parse_number_pos d t : is_digit d = true -> d <> "0"%char ->
  parse_number (String d t) = let '(z', r') := parse_digits t (digit_value d) in no_fraction z' r'.
Proof.
  destruct d as [[] [] [] [] [] [] [] []]; intros H H0;
    try discriminate H; try (exfalso; apply H0; reflexivity); reflexivity.
Qed.

Lemma parse_number_neg d t : is_digit d = true -> d <> "0"%char ->
  parse_number (String "-" (String d t)) =
  let '(z', r') := parse_digits t (digit_value d) in no_fraction (Z.opp z') r'.
Proof.
  destruct d as [[] [] [] [] [] [] [] []]; intros H H0;
    try discriminate H; try (exfalso; apply H0; reflexivity); reflexivity.
Qed.

Lemma parse_value_number (c : ascii) t f : (c = "-"%char \/ is_digit c = true) ->
  parse_value (S f) (String c t) = parse_number (String c t).
Proof.
  destruct c as [[] [] [] [] [] [] [] []]; intros [H|H];
    try discriminate H; try reflexivity.
Qed.

(** [str(n)] of a positive number, followed by [r], read back by [parse_digits]. *)
Lemma digits_read z r :
  (0 < z)%Z -> json_delim r = true ->
  exists d t, nat_digits (S (Z.to_nat (Z.log2 z))) z r = String d t /\ is_digit d = true /\
              d <> "0"%char /\ parse_digits t (digit_value d) = (z, r).
Proof.
  intros Hz Hr.
  destruct (nat_digits_head (S (Z.to_nat (Z.log2 z))) z r Hz (log2_fuel z Hz)) as [d [t [E [Hd H0]]]].
  destruct (nat_digits_parse (S (Z.to_nat (Z.log2 z))) z) as [k [_ Hk]]; [lia | apply log2_fuel; exact Hz|].
  exists d, t. split; [exact E | split; [exact Hd | split; [exact H0|]]].
  specialize (Hk 0%Z r). rewrite E in Hk. cbn [parse_digits] in Hk. rewrite Hd in Hk.
  rewrite Z.mul_0_l, Z.add_0_l in Hk. rewrite Hk, Z.mul_0_l, Z.add_0_l.
  apply parse_digits_delim. exact Hr.
Qed.

Lemma parse_value_int f z r :
  json_delim r = true -> parse_value (S f) (str_of_Z z ++ r) = Some (JInt z, r).
Proof.
  intros Hr. unfold str_of_Z.
  destruct (z <? 0)%Z eqn:Eneg.
  - apply Z.ltb_lt in Eneg.
    destruct (digits_read (- z) r) as [d [t [E [Hd [H0 Hp]]]]]; [lia | exact Hr|].
    change (("-" ++ nat_digits (S (Z.to_nat (Z.log2 (- z)))) (- z) "") ++ r)
      with (String "-" (nat_digits (S (Z.to_nat (Z.log2 (- z)))) (- z) "" ++ r)).
    rewrite nat_digits_app. cbn [String.append]. rewrite E.
    rewrite parse_value_number by (left; reflexivity).
    rewrite parse_number_neg by assumption. rewrite Hp.
    rewrite Z.opp_involutive. apply no_fraction_delim. exact Hr.
  - apply Z.ltb_ge in Eneg.
    destruct (Z.eq_dec z 0) as [->|Hz0].
    + change (parse_value (S f) (String "0" r) = Some (JInt 0, r)).
      rewrite parse_value_number by (right; reflexivity).
      apply no_fraction_delim. exact Hr.
    + destruct (digits_read z r) as [d [t [E [Hd [H0 Hp]]]]]; [lia | exact Hr|].
      rewrite nat_digits_app. cbn [String.append]. rewrite E.
      rewrite parse_value_number by (right; exact Hd).
      rewrite parse_number_pos by assumption. rewrite Hp.
      apply no_fraction_delim. exact Hr.
Qed.


Lemma length_app (s t : string) : String.length (s ++ t) = String.length s + String.length t.
Proof. induction s as [|a s IH]; simpl; [reflexivity | now rewrite IH]. Qed.

Lemma parse_str_escape s r : parse_str (escape_str s ++ dq ++ r) = Some (s, r).
Proof.
  induction s as [|c s IH]; [reflexivity|].
  cbn [escape_str]. rewrite append_assoc, parse_str_escape_char, IH. reflexivity.
Qed.

Lemma digit_head (c : ascii) : is_digit c = true -> is_json_ws c = false /\ c <> "]"%char /\ c <> "}"%char.
Proof.
  destruct c as [[] [] [] [] [] [] [] []]; intros H; try discriminate H;
    (split; [reflexivity | split; discriminate]).
Qed.

Lemma str_of_Z_head z : exists c t, str_of_Z z = String c t /\ (c = "-"%char \/ is_digit c = true).
Proof.
  unfold str_of_Z. destruct (z <? 0)%Z eqn:E.
  - eexists _, _. split; [reflexivity | left; reflexivity].
  - apply Z.ltb_ge in E. destruct (Z.eq_dec z 0) as [->|Hz].
    + eexists _, _. split; [reflexivity | right; reflexivity].
    + destruct (nat_digits_head (S (Z.to_nat (Z.log2 z))) z "") as [d [t [E' [Hd _]]]];
        [lia | apply log2_fuel; lia|].
      exists d, t. split; [exact E' | right; exact Hd].
Qed.

Lemma dumps_head v r : exists c t, dumps v ++ r = String c t /\
  is_json_ws c = false /\ c <> "]"%char /\ c <> "}"%char.
Proof.
  destruct v as [| [] | z | s | l | kv];
    try (eexists _, _; split; [reflexivity | split; [reflexivity | split; discriminate]]).
  cbn [dumps]. destruct (str_of_Z_head z) as [c [t [E [Hc|Hc]]]]; rewrite E.
  - subst c. eexists _, _. split; [reflexivity | split; [reflexivity | split; discriminate]].
  - eexists _, _. split; [reflexivity|]. now apply digit_head.
Qed.

Lemma parse_value_list_open f (c : ascii) t :
  is_json_ws c = false -> c <> "]"%char ->
  parse_value (S f) (String "[" (String c t)) =
  match parse_items f (String c t) with Some (l, r') => Some (JList l, r') | None => None end.
Proof.
  destruct c as [[] [] [] [] [] [] [] []]; intros H1 H2;
    try discriminate H1; try (exfalso; apply H2; reflexivity); reflexivity.
Qed.

Lemma join_length_head sep a l : String.length a <= String.length (join sep (a :: l)).
Proof. destruct l; cbn [join]; [lia|]. rewrite !length_app. lia. Qed.

Lemma dumps_nonempty v : 1 <= String.length (dumps v).
Proof.
  destruct (dumps_head v "") as [c [t [E _]]]. rewrite append_empty_r in E.
  rewrite E. simpl. lia.
Qed.

Lemma dict_set_fresh k x acc :
  existsb (String.eqb k) (map fst acc) = false -> dict_set k x acc = (acc ++ [(k, x)])%list.
Proof.
  induction acc as [|[k' x'] acc IH]; intros H; [reflexivity|].
  cbn [map fst existsb] in H. apply orb_false_iff in H as [H1 H2].
  cbn [dict_set]. rewrite H1, IH by exact H2. reflexivity.
Qed.

Lemma distinct_keys_mid l1 k l2 :
  distinct_keys (l1 ++ k :: l2)%list = true -> existsb (String.eqb k) l1 = false.
Proof.
  induction l1 as [|a l1 IH]; intros H; [reflexivity|].
  cbn [app distinct_keys] in H. apply andb_prop in H as [H1 H2].
  cbn [existsb]. rewrite IH by exact H2.
  destruct (String.eqb_spec k a) as [->|]; [|reflexivity].
  rewrite existsb_app in H1. cbn [existsb] in H1. rewrite String.eqb_refl in H1.
  rewrite orb_true_r in H1. discriminate.
Qed.

Lemma skip_ws_comma t : skip_ws (String "," t) = String "," t.
Proof. reflexivity. Qed.

Lemma parse_items_space g t : parse_items (S (S g)) (String " " t) = parse_items (S (S g)) t.
Proof. reflexivity. Qed.

Lemma parse_members_entry g acc k t :
  parse_members (S (S g)) acc (dq ++ escape_str k ++ dq ++ ": " ++ t) =
  match parse_value (S g) t with
  | Some (v, r3) =>
    match skip_ws r3 with
    | String "," r4 => parse_members (S g) (dict_set k v acc) r4
    | String "}" r4 => Some (dict_set k v acc, r4)
    | _ => None
    end
  | None => None
  end.
Proof.
  remember (escape_str k ++ dq ++ ": " ++ t) as X eqn:HX.
  transitivity (match parse_str X with
    | Some (k0, r1) =>
      match skip_ws r1 with
      | String ":" r2 =>
        match parse_value (S g) r2 with
        | Some (v, r3) =>
          match skip_ws r3 with
          | String "," r4 => parse_members (S g) (dict_set k0 v acc) r4
          | String "}" r4 => Some (dict_set k0 v acc, r4)
          | _ => None
          end
        | None => None
        end
      | _ => None
      end
    | None => None
    end); [reflexivity|].
  subst X. rewrite parse_str_escape. reflexivity.
Qed.

Lemma parse_members_space g acc t : parse_members (S g) acc (String " " t) = parse_members (S g) acc t.
Proof. reflexivity. Qed.

Lemma parse_value_dict_open f t :
  parse_value (S f) (String "{" (dq ++ t)) =
  match parse_members f [] (dq ++ t) with Some (kv, r') => Some (JDict kv, r') | None => None end.
Proof. reflexivity. Qed.

Lemma join_map_cons2 {A} sep (F : A -> string) a b l :
  join sep (map F (a :: b :: l)) = F a ++ sep ++ join sep (map F (b :: l)).
Proof. reflexivity. Qed.

Lemma dumps_parse n : forall v, String.length (dumps v) < n -> keys_wf v = true ->
  forall f r, String.length (dumps v) < f -> json_delim r = true ->
  parse_value f (dumps v ++ r) = Some (v, r).
Proof.
  induction n as [|n IH]; intros v Hn Hwf f r Hf Hr; [lia|].
  destruct f as [|f]; [lia|].
  destruct v as [| b | z | s | l | kv].
  - reflexivity.
  - destruct b; reflexivity.
  - apply parse_value_int. exact Hr.
  - cbn [dumps]. unfold dump_str. rewrite !append_assoc.
    transitivity (match parse_str (escape_str s ++ dq ++ r) with
                  | Some (t, r') => Some (JStr t, r') | None => None end); [reflexivity|].
    rewrite parse_str_escape. reflexivity.
  - destruct l as [|x l]; [reflexivity|].
    cbn [keys_wf] in Hwf.
    assert (Items : forall l g r, l <> [] -> forallb keys_wf l = true ->
              String.length (join ", " (map dumps l)) < n ->
              String.length (join ", " (map dumps l)) + 1 < g ->
              parse_items g (join ", " (map dumps l) ++ "]" ++ r) = Some (l, r)).
    { clear - IH. induction l as [|y l IHl]; intros g r0 Hne Hw Hlen Hg; [contradiction|].
      cbn [forallb] in Hw. apply andb_prop in Hw as [Hy Hw].
      pose proof (join_length_head ", " (dumps y) (map dumps l)) as Hy'.
      change (map dumps (y :: l)) with (dumps y :: map dumps l) in *.
      destruct g as [|g]; [lia|].
      destruct l as [|y' l].
      - cbn [map join] in *.
        cbn [parse_items]. rewrite IH by (try assumption; try lia; reflexivity).
        reflexivity.
      - change (join ", " (dumps y :: map dumps (y' :: l)))
          with (dumps y ++ ", " ++ join ", " (map dumps (y' :: l))) in *.
        rewrite !length_app in Hlen, Hg. cbn [String.length] in Hlen, Hg.
        pose proof (dumps_nonempty y).
        rewrite !append_assoc.
        cbn [parse_items]. rewrite IH by (try assumption; try lia; reflexivity).
        cbn [String.append]. rewrite skip_ws_comma.
        destruct g as [|[|g]]; [lia|lia|].
        rewrite parse_items_space. change (String "]" r0) with ("]" ++ r0).
        rewrite IHl by (try assumption; try lia; discriminate).
        reflexivity. }
    change (dumps (JList (x :: l))) with ("[" ++ join ", " (map dumps (x :: l)) ++ "]") in *.
    rewrite !length_app in Hn, Hf. cbn [String.length] in Hn, Hf.
    rewrite !append_assoc.
    destruct (dumps_head x (match map dumps l with [] => "" | _ => ", " ++ join ", " (map dumps l) end
                            ++ "]" ++ r)) as [c [t [E [Hws [Hb _]]]]].
    assert (Hs : join ", " (map dumps (x :: l)) ++ "]" ++ r = String c t).
    { rewrite <- E. destruct l; cbn [map join]; [reflexivity|]. now rewrite !append_assoc. }
    change ("[" ++ join ", " (map dumps (x :: l)) ++ "]" ++ r)
      with (String "[" (join ", " (map dumps (x :: l)) ++ "]" ++ r)).
    rewrite Hs, parse_value_list_open by assumption. rewrite <- Hs.
    rewrite Items by (try assumption; try lia; discriminate). reflexivity.
  - destruct kv as [|[k x] kv]; [reflexivity|].
    cbn [keys_wf] in Hwf. apply andb_prop in Hwf as [Hd Hwf].
    assert (Members : forall kv acc g r,
              kv <> [] -> forallb (fun kx => keys_wf (snd kx)) kv = true ->
              distinct_keys (map fst (acc ++ kv)) = true ->
              String.length (join ", " (map (fun '(k, x) => dump_str k ++ ": " ++ dumps x) kv)) < n ->
              String.length (join ", " (map (fun '(k, x) => dump_str k ++ ": " ++ dumps x) kv)) + 1 < g ->
              parse_members g acc
                (join ", " (map (fun '(k, x) => dump_str k ++ ": " ++ dumps x) kv) ++ "}" ++ r)
              = Some ((acc ++ kv)%list, r)).
    { clear - IH. induction kv as [|[k x] kv IHk]; intros acc g r0 Hne Hw Hd Hlen Hg; [contradiction|].
      cbn [forallb snd] in Hw. apply andb_prop in Hw as [Hx Hw].
      assert (Hfresh : existsb (String.eqb k) (map fst acc) = false).
      { apply (distinct_keys_mid _ _ (map fst kv)). rewrite <- Hd, map_app. reflexivity. }
      destruct g as [|[|g]]; [lia|lia|].
      destruct kv as [|[k' x'] kv].
      - cbn [map join] in *.
        change (dump_str k) with (dq ++ escape_str k ++ dq) in *.
        rewrite !length_app in Hlen, Hg. cbn [String.length dq] in Hlen, Hg.
        rewrite !append_assoc, parse_members_entry.
        rewrite IH by (try assumption; try lia; reflexivity).
        rewrite (dict_set_fresh _ _ _ Hfresh). reflexivity.
      - rewrite join_map_cons2 in Hlen, Hg |- *. cbv beta iota in Hlen, Hg |- *.
        pose proof (join_length_head ", " (dump_str k' ++ ": " ++ dumps x')
                      (map (fun '(k, x) => dump_str k ++ ": " ++ dumps x) kv)) as Hh.
        change (dump_str k) with (dq ++ escape_str k ++ dq) in *.
        rewrite !length_app in Hlen, Hg. cbn [String.length dq] in Hlen, Hg.
        rewrite !append_assoc, parse_members_entry.
        rewrite IH by (try assumption; try lia; reflexivity).
        rewrite (dict_set_fresh _ _ _ Hfresh).
        cbn [String.append]. rewrite skip_ws_comma, parse_members_space.
        change (String "}" r0) with ("}" ++ r0).
        rewrite IHk.
        + rewrite <- app_assoc. reflexivity.
        + discriminate.
        + exact Hw.
        + rewrite <- app_assoc. exact Hd.
        + lia.
        + lia. }
    change (dumps (JDict ((k, x) :: kv)))
      with ("{" ++ join ", " (map (fun '(k, x) => dump_str k ++ ": " ++ dumps x) ((k, x) :: kv)) ++ "}")
      in *.
    rewrite !length_app in Hn, Hf. cbn [String.length] in Hn, Hf.
    rewrite !append_assoc.
    assert (Hs : join ", " (map (fun '(k, x) => dump_str k ++ ": " ++ dumps x) ((k, x) :: kv)) ++ "}" ++ r
                 = dq ++ (escape_str k ++ dq ++ ": " ++ dumps x
                          ++ match map (fun '(k, x) => dump_str k ++ ": " ++ dumps x) kv with
                             | [] => "" | _ => ", " ++ join ", " (map (fun '(k, x) => dump_str k ++ ": " ++ dumps x) kv) end
                          ++ "}" ++ r)).
    { destruct kv; cbn [map join]; unfold dump_str; rewrite !append_assoc; reflexivity. }
    change ("{" ++ join ", " (map (fun '(k, x) => dump_str k ++ ": " ++ dumps x) ((k, x) :: kv)) ++ "}" ++ r)
      with (String "{" (join ", " (map (fun '(k, x) => dump_str k ++ ": " ++ dumps x) ((k, x) :: kv)) ++ "}" ++ r)).
    rewrite Hs, parse_value_dict_open. rewrite <- Hs.
    rewrite Members by (try assumption; try lia; discriminate). reflexivity.
Qed.

Lemma loads_dumps_keys v : keys_wf v = true -> loads (dumps v) = inr v.
Proof.
  intros Hwf. unfold loads.
  pose proof (dumps_parse (S (String.length (dumps v))) v ltac:(lia) Hwf
                (3 * String.length (dumps v) + 3) "" ltac:(lia) eq_refl) as H.
  rewrite append_empty_r in H. rewrite H. reflexivity.
Qed.

Ltac crush_in H :=
  repeat match type of H with
  | context [match ?x with _ => _ end] => let E := fresh "E" in destruct x eqn:E
  end.

Lemma no_fraction_int z r v r' : no_fraction z r = Some (v, r') -> v = JInt z.
Proof. unfold no_fraction. intros H. crush_in H; congruence. Qed.

Lemma parse_number_int s v r : parse_number s = Some (v, r) -> exists z, v = JInt z.
Proof.
  unfold parse_number. intros H. crush_in H; try discriminate H;
    eexists; eapply no_fraction_int; exact H.
Qed.

Lemma existsb_dict_set k' k v acc :
  existsb (String.eqb k') (map fst (dict_set k v acc)) =
  String.eqb k' k || existsb (String.eqb k') (map fst acc).
Proof.
  induction acc as [|[k0 v0] acc IH]; cbn [dict_set map fst existsb]; [now rewrite orb_false_r|].
  destruct (String.eqb_spec k k0) as [->|]; cbn [map fst existsb].
  - destruct (String.eqb k' k0); reflexivity.
  - rewrite IH. destruct (String.eqb k' k0), (String.eqb k' k); reflexivity.
Qed.

Lemma dict_set_wf k v acc :
  keys_wf (JDict acc) = true -> keys_wf v = true -> keys_wf (JDict (dict_set k v acc)) = true.
Proof.
  cbn [keys_wf]. intros H Hv. induction acc as [|[k0 v0] acc IH].
  - cbn. rewrite Hv. reflexivity.
  - cbn [map fst distinct_keys forallb snd] in H.
    apply andb_prop in H as [H1 H3]. apply andb_prop in H1 as [H1 H2].
    apply andb_prop in H3 as [H3 H4].
    cbn [dict_set]. destruct (String.eqb_spec k k0) as [->|Hne].
    + cbn [map fst distinct_keys forallb snd]. rewrite H1, H2, H4, Hv. reflexivity.
    + cbn [map fst distinct_keys forallb snd]. rewrite existsb_dict_set.
      destruct (String.eqb_spec k0 k) as [->|]; [congruence|].
      cbn [orb]. rewrite H1, H3.
      specialize (IH ltac:(rewrite H2, H4; reflexivity)).
      apply andb_prop in IH as [-> ->]. reflexivity.
Qed.

Lemma parse_wf f :
  (forall s v r, parse_value f s = Some (v, r) -> keys_wf v = true) /\
  (forall s l r, parse_items f s = Some (l, r) -> forallb keys_wf l = true) /\
  (forall acc s kv r, parse_members f acc s = Some (kv, r) ->
     keys_wf (JDict acc) = true -> keys_wf (JDict kv) = true).
Proof.
  induction f as [|f [IHv [IHi IHm]]]; [repeat split; discriminate|].
  split; [|split].
  - intros s v r H. cbn [parse_value] in H. crush_in H; try discriminate H;
      try (injection H as <- <-; try reflexivity);
      try (destruct (parse_number_int _ _ _ H) as [z ->]; reflexivity);
      first [ eapply IHm; [eassumption | reflexivity] | cbn [keys_wf]; eapply IHi; eassumption ].
  - intros s l r H. cbn [parse_items] in H. crush_in H; try discriminate H;
      injection H as <- <-; cbn [forallb]; rewrite (IHv _ _ _ E);
      first [ reflexivity | eapply IHi; eassumption ].
  - intros acc s kv r H Hacc. cbn [parse_members] in H. crush_in H; try discriminate H;
      first [ eapply IHm; [eassumption|] | injection H as <- <- ];
      (apply dict_set_wf; [exact Hacc | eapply IHv; eassumption]).
Qed.

Lemma loads_keys_wf s v : loads s = inr v -> keys_wf v = true.
Proof.
  unfold loads. intros H. crush_in H; try discriminate H.
  injection H as <-. eapply (proj1 (parse_wf _)). eassumption.
Qed.

Import Prefs.

Lemma dict_get_set k' k v acc :
  dict_get k' (dict_set k v acc) = if String.eqb k' k then Some v else dict_get k' acc.
Proof.
  induction acc as [|[k0 v0] acc IH]; cbn [dict_set dict_get]; [reflexivity|].
  destruct (String.eqb_spec k k0) as [->|Hne]; cbn [dict_get].
  - destruct (String.eqb k' k0); reflexivity.
  - rewrite IH. destruct (String.eqb_spec k' k0) as [->|]; [|reflexivity].
    destruct (String.eqb_spec k0 k); [congruence | reflexivity].
Qed.

Lemma setPref_getPref_keys f kv k v k' :
  fst (_loadJSON f) = inr (JDict kv) -> f <> PNotFile -> keys_wf v = true ->
  fst (setPref k v f) = inr tt /\
  fst (getPref k' (snd (setPref k v f))) =
    (if String.eqb k' k then inr v else fst (getPref k' f)).
Proof.
  intros Hl Hf Hv.
  assert (Hwf : keys_wf (JDict kv) = true).
  { destruct f as [|t|]; cbn in Hl; [injection Hl as Hk; subst kv; reflexivity | eapply loads_keys_wf; exact Hl | congruence]. }
  assert (Hs : setPref k v f = (inr tt, PFile (dumps (JDict (dict_set k v kv))))).
  { unfold setPref. destruct f as [|t|]; cbn in Hl |- *;
      [injection Hl as Hk; subst kv; reflexivity | rewrite Hl; reflexivity | congruence]. }
  rewrite Hs. split; [reflexivity|].
  unfold getPref at 1. cbn [_loadJSON fst snd].
  rewrite loads_dumps_keys by (apply dict_set_wf; assumption).
  cbn [bindR]. rewrite dict_get_set.
  unfold getPref. destruct (_loadJSON f) as [r f1]. cbn in Hl |- *. subst r. cbn [bindR].
  destruct (String.eqb k' k); reflexivity.
Qed.

(** [json.loads] gives back every value [json.dumps] wrote, for the values
    Python can hold and serialise. *)
Theorem loads_dumps v : json_wf v = true -> loads (dumps v) = inr v.
Proof. intros Hv. apply andb_prop in Hv as [Hv _]. exact (loads_dumps_keys v Hv). Qed.


(** On a prefs.json that is absent or holds a dict (within Python's integer
    limit), [setPref k v] succeeds, and afterwards [getPref k] gives [v]
    while every other key gives what it gave before. *)
Theorem setPref_getPref f kv k v k' :
  fst (_loadJSON f) = inr (JDict kv) -> ints_ok (JDict kv) = true -> f <> PNotFile ->
  json_wf v = true ->
  fst (setPref k v f) = inr tt /\
  fst (getPref k' (snd (setPref k v f))) =
    (if String.eqb k' k then inr v else fst (getPref k' f)).
Proof.
  intros Hl _ Hf Hv. apply andb_prop in Hv as [Hv _].
  exact (setPref_getPref_keys f kv k v k' Hl Hf Hv).
Qed.


End JsonProps.

(** ** Loading and unloading plugins *)
Module PluginProps.
Import PyStr Json Prefs Registry StrFacts RegistryProps JsonShape JsonProps.

Lemma assoc_get_set {V} x k (v : V) l :
  assoc_get x (assoc_set k v l) = if String.eqb x k then Some v else assoc_get x l.
Proof.
  induction l as [|[k0 v0] l IH]; cbn [assoc_set assoc_get]; [reflexivity|].
  destruct (String.eqb_spec k k0) as [->|Hne]; cbn [assoc_get].
  - destruct (String.eqb x k0); reflexivity.
  - rewrite IH. destruct (String.eqb_spec x k0) as [->|]; [|reflexivity].
    destruct (String.eqb_spec k0 k); [congruence | reflexivity].
Qed.

Lemma assoc_get_update_notin {V} x (l new : list (string * V)) :
  ~ In x (map fst new) -> assoc_get x (assoc_update l new) = assoc_get x l.
Proof.
  unfold assoc_update. revert l. induction new as [|[k v] new IH]; intros l Hx; [reflexivity|].
  cbn [fold_left]. cbn [map fst In] in Hx. rewrite IH by tauto.
  rewrite assoc_get_set. destruct (String.eqb_spec x k); [subst; tauto | reflexivity].
Qed.

Lemma assoc_get_update_in {V} x (v : V) (l new : list (string * V)) :
  NoDup (map fst new) -> In (x, v) new -> assoc_get x (assoc_update l new) = Some v.
Proof.
  unfold assoc_update. revert l. induction new as [|[k v'] new IH]; intros l Hnd Hin; [destruct Hin|].
  cbn [map fst] in Hnd. inversion Hnd as [|? ? Hk Hnd']; subst.
  cbn [fold_left]. destruct Hin as [Heq | Hin].
  - injection Heq as -> ->.
    change (assoc_get x (assoc_update (assoc_set x v l) new) = Some v).
    rewrite assoc_get_update_notin by exact Hk. rewrite assoc_get_set, String.eqb_refl. reflexivity.
  - apply IH; assumption.
Qed.

Lemma map_fst_plugin {H} (cmds : list (string * H)) :
  map fst (map (fun '((k, h) : string * H) => (k, PluginCmd h)) cmds) = map fst cmds.
Proof. induction cmds as [|[k h] cmds IH]; cbn; [reflexivity | now rewrite IH]. Qed.

Lemma in_map_plugin {H} x (h : H) (cmds : list (string * H)) :
  In (x, h) cmds -> In (x, PluginCmd h) (map (fun '(k, h) => (k, PluginCmd h)) cmds).
Proof.
  induction cmds as [|[k h'] cmds IH]; intros Hin; [destruct Hin|].
  destruct Hin as [Heq | Hin]; [injection Heq as -> ->; left; reflexivity | right; auto].
Qed.

Lemma existsb_not_in p l : ~ In p l -> existsb (String.eqb p) l = false.
Proof.
  intros Hn. destruct (existsb (String.eqb p) l) eqn:E; [|reflexivity].
  apply existsb_exists in E as [q [Hq Heq]]. apply String.eqb_eq in Heq. subst q. contradiction.
Qed.

Lemma existsb_in p l : In p l -> existsb (String.eqb p) l = true.
Proof. intros Hin. apply existsb_exists. exists p. split; [exact Hin | apply String.eqb_refl]. Qed.

Section Reg.
Context {H : Type} (resolve : string -> resolution H).

Lemma load_resolved p st cmds :
  normalize p <> "" -> ~ In (normalize p) (loadedPlugins st) -> resolve (normalize p) = Resolved cmds ->
  commands (snd (loadPlugin resolve p st)) =
    assoc_update (commands st) (map (fun '(k, h) => (k, PluginCmd h)) cmds) /\
  loadedPlugins (snd (loadPlugin resolve p st)) = set_add (normalize p) (loadedPlugins st).
Proof.
  intros Hne Hn Hres. unfold loadPlugin. cbv zeta.
  apply String.eqb_neq in Hne. rewrite Hne, existsb_not_in by exact Hn. rewrite Hres.
  split_matches; cbn [snd commands loadedPlugins with_file with_loaded with_commands emit printf];
    split; reflexivity.
Qed.

Lemma loaded_load_cases p st :
  loadedPlugins (snd (loadPlugin resolve p st)) = loadedPlugins st \/
  (~ In (normalize p) (loadedPlugins st) /\
   loadedPlugins (snd (loadPlugin resolve p st)) = set_add (normalize p) (loadedPlugins st)).
Proof.
  destruct (String.eqb (normalize p) "") eqn:E0.
  - left. unfold loadPlugin. cbv zeta. rewrite E0. reflexivity.
  - destruct (existsb (String.eqb (normalize p)) (loadedPlugins st)) eqn:E1.
    + left. unfold loadPlugin. cbv zeta. rewrite E0, E1. reflexivity.
    + assert (Hn : ~ In (normalize p) (loadedPlugins st)).
      { intros Hin. rewrite existsb_in in E1 by exact Hin. discriminate. }
      unfold loadPlugin. cbv zeta. rewrite E0, E1.
      split_matches; first [left; reflexivity | right; split; [exact Hn | reflexivity]].
Qed.

Lemma loaded_unload_cases p st :
  loadedPlugins (snd (unloadPlugin resolve p st)) = loadedPlugins st \/
  loadedPlugins (snd (unloadPlugin resolve p st)) = set_remove (normalize p) (loadedPlugins st).
Proof.
  unfold unloadPlugin. cbv zeta.
  destruct (String.eqb (normalize p) ""); [left; reflexivity|].
  destruct (negb _); [left; reflexivity|].
  split_matches; cbn [snd loadedPlugins with_file with_loaded with_commands emit logError printf];
    first [left; reflexivity | right; reflexivity].
Qed.

(** In every state the registry can reach, the loaded set has no duplicate
    and holds only normalized, non-empty plugin ids. *)
Theorem tracked_plugins_invariant st :
  reachable resolve st ->
  NoDup (loadedPlugins st) /\
  (forall q, In q (loadedPlugins st) -> normalize q = q /\ q <> "").
Proof.
  intros Hr. split; [|exact (reachable_tracked resolve st Hr)].
  induction Hr as [f o | st p _ IH | st p _ IH | st f _ IH].
  - constructor.
  - destruct (loaded_load_cases p st) as [-> | [Hn ->]]; [exact IH|].
    unfold set_add. rewrite existsb_not_in by exact Hn.
    apply NoDup_app; [exact IH | constructor; [intros []| constructor] |].
    intros x Hx [<- | []]. contradiction.
  - destruct (loaded_unload_cases p st) as [-> | ->]; [exact IH|].
    apply NoDup_filter. exact IH.
  - exact IH.
Qed.

(** Load: every command of the plugin is routed to it, the rest is kept. *)
(** Loading a plugin id that is not loaded and whose module has the command
    dict [cmds] (with distinct names) maps each name of [cmds] to the
    plugin's handler, overriding any earlier entry, leaves every other name
    as it was, and appends the id to the loaded set. *)
Theorem load_effect p st cmds :
  normalize p <> "" -> ~ In (normalize p) (loadedPlugins st) -> resolve (normalize p) = Resolved cmds ->
  NoDup (map fst cmds) ->
  (forall x h, In (x, h) cmds -> assoc_get x (commands (snd (loadPlugin resolve p st))) = Some (PluginCmd h)) /\
  (forall x, ~ In x (map fst cmds) ->
     assoc_get x (commands (snd (loadPlugin resolve p st))) = assoc_get x (commands st)) /\
  loadedPlugins (snd (loadPlugin resolve p st)) = (loadedPlugins st ++ [normalize p])%list.
Proof.
  intros Hne Hn Hres Hnd. destruct (load_resolved p st cmds Hne Hn Hres) as [Hc Hl].
  rewrite Hc, Hl. split; [|split].
  - intros x h Hin. apply assoc_get_update_in.
    + rewrite map_fst_plugin. exact Hnd.
    + apply in_map_plugin. exact Hin.
  - intros x Hx. apply assoc_get_update_notin. rewrite map_fst_plugin. exact Hx.
  - unfold set_add. rewrite existsb_not_in by exact Hn. reflexivity.
Qed.

(** Loading a plugin whose command names are all unused, then unloading it,
    gives back the same command mapping and the same loaded set. *)
Theorem load_unload_restores p st cmds :
  normalize p <> "" -> ~ In (normalize p) (loadedPlugins st) -> resolve (normalize p) = Resolved cmds ->
  (forall x, In x (map fst cmds) -> assoc_get x (commands st) = None) ->
  (forall x, assoc_get x (commands (snd (unloadPlugin resolve p (snd (loadPlugin resolve p st)))))
             = assoc_get x (commands st)) /\
  loadedPlugins (snd (unloadPlugin resolve p (snd (loadPlugin resolve p st)))) = loadedPlugins st.
Proof.
  intros Hne Hn Hres Hfresh. destruct (load_resolved p st cmds Hne Hn Hres) as [Hc Hl].
  assert (Hin : In (normalize p) (loadedPlugins (snd (loadPlugin resolve p st)))).
  { rewrite Hl. unfold set_add. rewrite existsb_not_in by exact Hn. apply in_or_app. right. left. reflexivity. }
  destruct (unload_resolved resolve p _ cmds Hne Hin Hres) as [Hc' Hl'].
  rewrite Hc', Hl', Hc, Hl. split.
  - intros x. rewrite assoc_get_fold_del.
    destruct (existsb (String.eqb x) (map fst cmds)) eqn:E.
    + apply existsb_exists in E as [y [Hy Heq]]. apply String.eqb_eq in Heq. subst y.
      symmetry. apply Hfresh. exact Hy.
    + apply assoc_get_update_notin. rewrite map_fst_plugin.
      intros Hx. rewrite existsb_in in E by exact Hx. discriminate.
  - unfold set_add, set_remove. rewrite existsb_not_in by exact Hn.
    rewrite filter_app. cbn [filter]. rewrite String.eqb_refl. cbn [negb]. rewrite app_nil_r.
    apply forallb_filter_id. apply forallb_forall. intros q Hq.
    destruct (String.eqb_spec (normalize p) q) as [<-|]; [contradiction | reflexivity].
Qed.

(** When the module of a plugin id cannot be used (not found, no
    [commands], or another exception), [loadPlugin] and [unloadPlugin] only
    log an error: commands, loaded set and preference file are unchanged. *)
Theorem unresolved_only_logs p st :
  (forall cmds, resolve (normalize p) <> Resolved cmds) ->
  (exists msg, loadPlugin resolve p st = (inr tt, emit H st (PErr msg))) /\
  (exists msg, unloadPlugin resolve p st = (inr tt, emit H st (PErr msg))).
Proof.
  intros Hres. unfold loadPlugin, unloadPlugin, logError. cbv zeta.
  destruct (resolve (normalize p)) as [cmds| | |m] eqn:E; [exfalso; exact (Hres cmds eq_refl)| | |];
    split; destruct (String.eqb (normalize p) ""); try (eexists; reflexivity);
    destruct (existsb (String.eqb (normalize p)) (loadedPlugins st)); eexists; reflexivity.
Qed.

(** Unloading a plugin id that is not loaded only logs an error. *)
Theorem unload_untracked_only_logs p st :
  ~ In (normalize p) (loadedPlugins st) ->
  exists msg, unloadPlugin resolve p st = (inr tt, emit H st (PErr msg)).
Proof.
  intros Hn. unfold unloadPlugin, logError. cbv zeta.
  destruct (String.eqb (normalize p) ""); [eexists; reflexivity|].
  rewrite existsb_not_in by exact Hn. eexists; reflexivity.
Qed.

End Reg.

Lemma dict_get_wf k kv v : dict_get k kv = Some v -> keys_wf (JDict kv) = true -> keys_wf v = true.
Proof.
  cbn [keys_wf]. intros Hg Hw. apply andb_prop in Hw as [_ Hw].
  induction kv as [|[k0 v0] kv IH]; [discriminate|].
  cbn [forallb snd] in Hw. apply andb_prop in Hw as [H0 Hw].
  cbn [dict_get] in Hg. destruct (String.eqb k k0); [injection Hg as <-; exact H0 | exact (IH Hg Hw)].
Qed.

Lemma getPref_file k t : snd (getPref k (PFile t)) = PFile t.
Proof. reflexivity. Qed.

Lemma getPref_wf k t v : fst (getPref k (PFile t)) = inr v -> keys_wf v = true.
Proof.
  unfold getPref. cbn [_loadJSON]. destruct (loads t) as [e|d] eqn:Ed; [discriminate|].
  cbn [bindR fst]. apply loads_keys_wf in Ed.
  destruct d as [| | | | |kv]; try discriminate. intros Hv. injection Hv as <-.
  destruct (dict_get k kv) eqn:Eg; [exact (dict_get_wf _ _ _ Eg Ed) | reflexivity].
Qed.

Lemma py_in_list s l :
  py_in_str s (JList l) = inr (existsb (fun v => match v with JStr t => String.eqb t s | _ => false end) l).
Proof. reflexivity. Qed.

Lemma existsb_jstr s l :
  existsb (fun v => match v with JStr t => String.eqb t s | _ => false end) l = true <-> In (JStr s) l.
Proof.
  rewrite existsb_exists. split.
  - intros [v [Hv Heq]]. destruct v; try discriminate. apply String.eqb_eq in Heq. subst. exact Hv.
  - intros Hin. exists (JStr s). split; [exact Hin | apply String.eqb_refl].
Qed.

Section Persist.
Context {H : Type} (resolve : string -> resolution H).

(** Loading a new plugin when prefs.json holds a dict (within Python's
    integer limit) whose "plugins" entry is a list without the id, or is
    falsy: it prints "Plugin {id} loaded!", and afterwards "plugins" is
    that list with the id appended while every other preference keeps its
    value. *)
Theorem load_persists p st cmds t kv ps l :
  normalize p <> "" -> ~ In (normalize p) (loadedPlugins st) -> resolve (normalize p) = Resolved cmds ->
  prefsFile st = PFile t -> loads t = inr (JDict kv) -> ints_ok (JDict kv) = true ->
  fst (getPref "plugins" (PFile t)) = inr ps -> (if truthy ps then ps else JList []) = JList l ->
  ~ In (JStr (normalize p)) l ->
  fst (loadPlugin resolve p st) = inr tt /\
  out (snd (loadPlugin resolve p st)) = (out st ++ [POut ("Plugin " ++ normalize p ++ " loaded!")])%list /\
  (forall k, fst (getPref k (prefsFile (snd (loadPlugin resolve p st)))) =
             if String.eqb k "plugins" then inr (JList (l ++ [JStr (normalize p)]))
             else fst (getPref k (PFile t))).
Proof.
  intros Hne Hn Hres Hp Ht _ Hps Hl Hnl.
  assert (Hwl : keys_wf (JList (l ++ [JStr (normalize p)])%list) = true).
  { apply getPref_wf in Hps. cbn [keys_wf] in *. rewrite forallb_app, andb_true_r.
    destruct (truthy ps); [subst ps; exact Hps | injection Hl as <-; reflexivity]. }
  destruct (setPref_getPref_keys (PFile t) kv "plugins" (JList (l ++ [JStr (normalize p)])) "plugins" Ht
              ltac:(discriminate) Hwl) as [Hs _].
  assert (Hget := fun k => proj2 (setPref_getPref_keys (PFile t) kv "plugins" (JList (l ++ [JStr (normalize p)]))
              k Ht ltac:(discriminate) Hwl)).
  destruct (setPref "plugins" (JList (l ++ [JStr (normalize p)])) (PFile t)) as [r2 f2] eqn:Es.
  cbn [fst snd] in Hs, Hget. subst r2.
  assert (Eg : getPref "plugins" (PFile t) = (inr ps, PFile t)).
  { rewrite <- Hps. reflexivity. }
  unfold loadPlugin. cbv zeta.
  apply String.eqb_neq in Hne. rewrite Hne, existsb_not_in by exact Hn. rewrite Hres.
  cbn [prefsFile with_loaded with_commands]. rewrite Hp, Eg. cbv beta iota.
  rewrite Hl, py_in_list.
  replace (existsb _ l) with false
    by (symmetry; apply not_true_is_false; rewrite existsb_jstr; exact Hnl).
  cbn [prefsFile with_file]. rewrite Es. cbv beta iota.
  cbn [fst snd printf emit out prefsFile with_file with_loaded with_commands].
  split; [reflexivity | split; [reflexivity | exact Hget]].
Qed.

(** Unloading a loaded plugin whose id is in the "plugins" list of prefs.json:
    it prints "Plugin {id} unloaded!", and afterwards "plugins" is that list
    with the first copy of the id removed while every other preference keeps
    its value. *)
Theorem unload_persists p st cmds t kv l :
  normalize p <> "" -> In (normalize p) (loadedPlugins st) -> resolve (normalize p) = Resolved cmds ->
  prefsFile st = PFile t -> loads t = inr (JDict kv) -> ints_ok (JDict kv) = true ->
  fst (getPref "plugins" (PFile t)) = inr (JList l) -> In (JStr (normalize p)) l ->
  fst (unloadPlugin resolve p st) = inr tt /\
  out (snd (unloadPlugin resolve p st)) = (out st ++ [POut ("Plugin " ++ normalize p ++ " unloaded!")])%list /\
  (forall k, fst (getPref k (prefsFile (snd (unloadPlugin resolve p st)))) =
             if String.eqb k "plugins" then inr (JList (remove_first (normalize p) l))
             else fst (getPref k (PFile t))).
Proof.
  intros Hne Hin Hres Hp Ht _ Hps Hpl.
  assert (Hwl : keys_wf (JList (remove_first (normalize p) l)) = true).
  { apply getPref_wf in Hps. cbn [keys_wf] in *. clear - Hps.
    induction l as [|v l IH]; [reflexivity|].
    cbn [forallb] in Hps. apply andb_prop in Hps as [Hv Hl].
    cbn [remove_first]. destruct v; cbn [forallb]; rewrite ?Hv, ?IH by exact Hl; try reflexivity.
    destruct (String.eqb _ _); [exact Hl | cbn [forallb]; rewrite IH by exact Hl; reflexivity]. }
  destruct (setPref_getPref_keys (PFile t) kv "plugins" (JList (remove_first (normalize p) l)) "plugins" Ht
              ltac:(discriminate) Hwl) as [Hs _].
  assert (Hget := fun k => proj2 (setPref_getPref_keys (PFile t) kv "plugins" (JList (remove_first (normalize p) l))
              k Ht ltac:(discriminate) Hwl)).
  destruct (setPref "plugins" (JList (remove_first (normalize p) l)) (PFile t)) as [r2 f2] eqn:Es.
  cbn [fst snd] in Hs, Hget. subst r2.
  assert (Eg : getPref "plugins" (PFile t) = (inr (JList l), PFile t)).
  { rewrite <- Hps. reflexivity. }
  unfold unloadPlugin. cbv zeta.
  apply String.eqb_neq in Hne. rewrite Hne, existsb_in by exact Hin. rewrite Hres.
  cbn [negb prefsFile with_loaded with_commands]. rewrite Hp, Eg. cbv beta iota.
  replace (truthy (JList l)) with true by (destruct l; [destruct Hpl | reflexivity]).
  rewrite py_in_list.
  replace (existsb _ l) with true by (symmetry; apply existsb_jstr; exact Hpl).
  cbn [prefsFile with_file]. rewrite Es. cbv beta iota.
  cbn [fst snd printf emit out prefsFile with_file with_loaded with_commands].
  split; [reflexivity | split; [reflexivity | exact Hget]].
Qed.

End Persist.

End PluginProps.

(** ** More of the event renderer and of [formatHTML] *)
Module RenderExtras.
Import PyStr Json Format Render RenderProps StrFacts.

Lemma prefix_head (c d : ascii) p t : prefix (String d p) (String c t) = true -> c = d.
Proof. cbn [prefix]. destruct (ascii_dec d c); [congruence | discriminate]. Qed.

(** A matcher that only matches text starting with [c0]. *)
Definition starts_match (m : string -> option string) (c0 : ascii) : Prop :=
  forall c t, m (String c t) <> None -> c = c0.

Ltac matcher_head :=
  let c := fresh "c" in let t := fresh "t" in
  intros c t;
  repeat match goal with
  | |- context [prefix ?p (String c t)] =>
    let E := fresh "E" in
    destruct (prefix p (String c t)) eqn:E; [intros _; exact (prefix_head _ _ _ _ E) |]
  end;
  cbn; intros Hn; exfalso; exact (Hn eq_refl).

Lemma psicon_head : starts_match m_psicon "<".
Proof. unfold starts_match, m_psicon. matcher_head. Qed.

Lemma marker_head : starts_match m_marker "|".
Proof. unfold starts_match, m_marker. matcher_head. Qed.

Lemma imgfont_head : starts_match m_imgfont "<".
Proof. unfold starts_match, m_imgfont. cbv zeta. matcher_head. Qed.

Lemma entity_head : starts_match m_entity "&".
Proof. unfold starts_match, m_entity. matcher_head. Qed.

Lemma sub_fuel_id f m repl c0 s :
  starts_match m c0 -> has_char c0 s = false -> sub_fuel f m repl s = s.
Proof.
  intros Hm. revert s. induction f as [|f IH]; intros s Hs; [reflexivity|].
  destruct s as [|c s]; [reflexivity|]. cbn [sub_fuel].
  cbn [has_char] in Hs. apply orb_false_iff in Hs as [Hc Hs].
  destruct (m (String c s)) eqn:E.
  - exfalso. assert (Hc0 : c = c0) by (apply (Hm c s); rewrite E; discriminate).
    subst c. rewrite Ascii.eqb_refl in Hc. discriminate.
  - f_equal. apply IH. exact Hs.
Qed.

Lemma sub_id m repl c0 s : starts_match m c0 -> has_char c0 s = false -> sub m repl s = s.
Proof. intros Hm Hs. exact (sub_fuel_id _ m repl c0 s Hm Hs). Qed.

(** Text without '<', '|' or '&' goes through the four substitutions of
    [formatHTML] unchanged. *)
Theorem format_text_plain s :
  has_char "<" s = false -> has_char "|" s = false -> has_char "&" s = false ->
  format_text s = s.
Proof.
  intros Hlt Hbar Hamp. unfold format_text.
  rewrite (sub_id m_psicon "" "<" s psicon_head Hlt).
  rewrite (sub_id m_marker nl "|" s marker_head Hbar).
  rewrite (sub_id m_imgfont "" "<" s imgfont_head Hlt).
  exact (sub_id m_entity " " "&" s entity_head Hamp).
Qed.

(** An event whose kind is in the [blacklistedTypes] preference prints
    nothing. *)
Theorem handleMessage_blacklisted html g m :
  py_in_str (mtype m) (g "blacklistedTypes") = inr true -> handleMessage html g m = inr [].
Proof. intros Hbl. unfold handleMessage. rewrite Hbl. reflexivity. Qed.

(** A raw or html event with a non-empty raw line prints one [HTML] unit:
    [formatHTML] of the text after its second "|" (the rest of the line). *)
Theorem raw_html_rendering html g m p :
  py_in_str (mtype m) (g "blacklistedTypes") = inr false ->
  (mtype m = "raw" \/ mtype m = "html") -> raw m <> "" ->
  nth_error (splitn "|" (raw m) 2) 2 = Some p ->
  handleMessage html g m = (h <- formatHTML html p ;; inr [UHtml h]).
Proof.
  intros Hbl Hty Hraw Hp.
  destruct Hty as [Hty|Hty]; pose proof (kind_of m _ Hty) as Hk;
    unfold handleMessage; rewrite Hbl; cbn [bindR]; rewrite !Hk, (truthy_some _ Hraw);
    cbn -[splitn formatHTML nth_error]; rewrite Hp; cbn [bindR];
    destruct (formatHTML html p); reflexivity.
Qed.


End RenderExtras.

(** ** Concrete instances of the properties above *)
Module ExtraChecks.
Import PyStr Json Prefs Registry Format Render JsonShape JsonProps PluginProps RenderExtras.

Lemma loads_dumps_witness :
  json_wf (JDict [("plugins", JList [JStr "sampleplugin"]); ("showjoins", JBool true); ("n", JInt (-12))]) = true /\
  loads (dumps (JDict [("plugins", JList [JStr "sampleplugin"]); ("showjoins", JBool true); ("n", JInt (-12))]))
  = inr (JDict [("plugins", JList [JStr "sampleplugin"]); ("showjoins", JBool true); ("n", JInt (-12))]).
Proof. split; [vm_compute; reflexivity | apply loads_dumps; vm_compute; reflexivity]. Defined.


Lemma setPref_getPref_witness :
  fst (setPref "showjoins" (JBool true) (PFile "{}")) = inr tt /\
  fst (getPref "showjoins" (snd (setPref "showjoins" (JBool true) (PFile "{}")))) =
    (if String.eqb "showjoins" "showjoins" then inr (JBool true)
     else fst (getPref "showjoins" (PFile "{}"))).
Proof.
  apply (setPref_getPref (PFile "{}") [] "showjoins" (JBool true) "showjoins");
    [vm_compute; reflexivity | reflexivity | discriminate | vm_compute; reflexivity].
Defined.


Lemma tracked_plugins_invariant_witness :
  reachable Fixtures.resolver Fixtures.loaded_once /\
  NoDup (loadedPlugins Fixtures.loaded_once) /\
  (forall q, In q (loadedPlugins Fixtures.loaded_once) -> normalize q = q /\ q <> "").
Proof.
  assert (Hr : reachable Fixtures.resolver Fixtures.loaded_once) by (apply reach_load, reach_init).
  split; [exact Hr | exact (tracked_plugins_invariant Fixtures.resolver Fixtures.loaded_once Hr)].
Defined.

Lemma load_effect_witness :
  (forall x h, In (x, h) [("dadjoke", tt); ("alias", tt)] ->
     assoc_get x (commands (snd (loadPlugin Fixtures.resolver "sampleplugin" Fixtures.fresh)))
     = Some (PluginCmd h)) /\
  (forall x, ~ In x (map fst [("dadjoke", tt); ("alias", tt)]) ->
     assoc_get x (commands (snd (loadPlugin Fixtures.resolver "sampleplugin" Fixtures.fresh)))
     = assoc_get x (commands Fixtures.fresh)) /\
  loadedPlugins (snd (loadPlugin Fixtures.resolver "sampleplugin" Fixtures.fresh))
  = (loadedPlugins Fixtures.fresh ++ [normalize "sampleplugin"])%list.
Proof.
  apply (load_effect Fixtures.resolver "sampleplugin" Fixtures.fresh [("dadjoke", tt); ("alias", tt)]).
  - vm_compute. discriminate.
  - vm_compute. intros [].
  - vm_compute. reflexivity.
  - cbn [map fst]. constructor; [intros [Hx | []]; discriminate | constructor; [intros [] | constructor]].
Defined.

Lemma load_unload_restores_witness :
  (forall x, assoc_get x (commands (snd (unloadPlugin Fixtures.resolver "sampleplugin"
                                          (snd (loadPlugin Fixtures.resolver "sampleplugin" Fixtures.fresh)))))
             = assoc_get x (commands Fixtures.fresh)) /\
  loadedPlugins (snd (unloadPlugin Fixtures.resolver "sampleplugin"
                        (snd (loadPlugin Fixtures.resolver "sampleplugin" Fixtures.fresh))))
  = loadedPlugins Fixtures.fresh.
Proof.
  apply (load_unload_restores Fixtures.resolver "sampleplugin" Fixtures.fresh [("dadjoke", tt); ("alias", tt)]).
  - vm_compute. discriminate.
  - vm_compute. intros [].
  - vm_compute. reflexivity.
  - intros x Hx. cbn [map fst In] in Hx. destruct Hx as [<- | [<- | []]]; reflexivity.
Defined.

Lemma unresolved_only_logs_witness :
  (exists msg, loadPlugin Fixtures.resolver "nosuch" Fixtures.fresh = (inr tt, emit unit Fixtures.fresh (PErr msg))) /\
  (exists msg, unloadPlugin Fixtures.resolver "nosuch" Fixtures.fresh = (inr tt, emit unit Fixtures.fresh (PErr msg))).
Proof.
  apply (unresolved_only_logs Fixtures.resolver "nosuch" Fixtures.fresh).
  intros cmds. vm_compute. discriminate.
Defined.

Lemma unload_untracked_only_logs_witness :
  exists msg, unloadPlugin Fixtures.resolver "sampleplugin" Fixtures.fresh
              = (inr tt, emit unit Fixtures.fresh (PErr msg)).
Proof.
  apply (unload_untracked_only_logs Fixtures.resolver "sampleplugin" Fixtures.fresh).
  vm_compute. intros [].
Defined.

Lemma load_persists_witness :
  fst (loadPlugin Fixtures.resolver "sampleplugin" Fixtures.fresh) = inr tt /\
  out (snd (loadPlugin Fixtures.resolver "sampleplugin" Fixtures.fresh))
  = (out Fixtures.fresh ++ [POut ("Plugin " ++ normalize "sampleplugin" ++ " loaded!")])%list /\
  (forall k, fst (getPref k (prefsFile (snd (loadPlugin Fixtures.resolver "sampleplugin" Fixtures.fresh)))) =
             if String.eqb k "plugins" then inr (JList ([] ++ [JStr (normalize "sampleplugin")]))
             else fst (getPref k (PFile "{}"))).
Proof.
  apply (load_persists Fixtures.resolver "sampleplugin" Fixtures.fresh [("dadjoke", tt); ("alias", tt)]
           "{}" [] JNone []);
    [vm_compute; first [discriminate | intros [] | reflexivity] ..].
Defined.

Lemma unload_persists_witness :
  fst (unloadPlugin Fixtures.resolver "sampleplugin" Fixtures.loaded_once) = inr tt /\
  out (snd (unloadPlugin Fixtures.resolver "sampleplugin" Fixtures.loaded_once))
  = (out Fixtures.loaded_once ++ [POut ("Plugin " ++ normalize "sampleplugin" ++ " unloaded!")])%list /\
  (forall k, fst (getPref k (prefsFile (snd (unloadPlugin Fixtures.resolver "sampleplugin" Fixtures.loaded_once)))) =
             if String.eqb k "plugins" then inr (JList (remove_first (normalize "sampleplugin") [JStr "sampleplugin"]))
             else fst (getPref k (PFile (dumps (JDict [("plugins", JList [JStr "sampleplugin"])]))))).
Proof.
  apply (unload_persists Fixtures.resolver "sampleplugin" Fixtures.loaded_once [("dadjoke", tt); ("alias", tt)]
           (dumps (JDict [("plugins", JList [JStr "sampleplugin"])])) [("plugins", JList [JStr "sampleplugin"])]
           [JStr "sampleplugin"]);
    [vm_compute; first [discriminate | left; reflexivity | reflexivity] ..].
Defined.

Lemma format_text_plain_witness :
  has_char "<" "hello world" = false /\ has_char "|" "hello world" = false /\
  has_char "&" "hello world" = false /\ format_text "hello world" = "hello world".
Proof.
  split; [reflexivity | split; [reflexivity | split; [reflexivity|]]].
  apply format_text_plain; reflexivity.
Defined.

Lemma handleMessage_blacklisted_witness :
  handleMessage Fixtures.html_accepts Fixtures.store
    (mkMessage "queryresponse" "|queryresponse|rooms|null" None None None None None (Some "poketext"))
  = inr [].
Proof. apply handleMessage_blacklisted. reflexivity. Defined.

Lemma raw_html_rendering_witness :
  handleMessage Fixtures.html_accepts Fixtures.store (Fixtures.raw_msg "|raw|<b>x</b>")
  = (h <- formatHTML Fixtures.html_accepts "<b>x</b>" ;; inr [UHtml h]).
Proof.
  apply raw_html_rendering; [reflexivity | left; reflexivity | discriminate | vm_compute; reflexivity].
Defined.


End ExtraChecks.
